(** * Matrix File Rain: the drop animation engine of [matrix_rain_gui.py]

    A shallow embedding of the allocator [_create_drops], the per-frame
    update [_update_rain] and the host callbacks around them, with the
    Python [random] module and the Tk canvas made explicit:
    - the global random generator is a stream of raw draws plus a read
      position, every primitive maps one raw draw into its range;
    - the canvas is the list of calls it received plus its id counter;
    - Python exceptions are values of [exn], computations return [result]. *)

From Stdlib Require Import ZArith List Bool Lia.
From Stdlib.Strings Require Import String Ascii Byte.
From stdpp Require Import base list gmap.
Import ListNotations.

Local Open Scope Z_scope.

(** ** Exceptions and results *)

Inductive exn : Type :=
| ValueError        (* random.randint / random.randrange on an empty range *)
| IndexError        (* list index out of range, pop from an empty list *)
| TypeError         (* subscripting None *)
| ZeroDivisionError (* // or % by zero *)
| OutOfFuel.        (* model only: the budget of a while loop ran out *)

Inductive result (A : Type) : Type :=
| Ok (a : A)
| Raise (e : exn).
Arguments Ok {A} a.
Arguments Raise {A} e.

Definition bind {A B} (m : result A) (k : A -> result B) : result B :=
  match m with
  | Ok a => k a
  | Raise e => Raise e
  end.

Notation "x <- m ;; k" := (bind m (fun x => k))
  (at level 20, m at level 99, k at level 200, only parsing).
Notation "' p <- m ;; k" := (bind m (fun p => k))
  (at level 20, p pattern, m at level 99, k at level 200, only parsing).

(** ** The random module *)

Record Rng : Type := mkRng { stream : nat -> Z; pos : nat }.

Definition next_raw (g : Rng) : Z * Rng :=
  (stream g (pos g), mkRng (stream g) (S (pos g))).

(** The generator after one raw draw. *)
Definition advance_rng (g : Rng) : Rng := mkRng (stream g) (S (pos g)).

(** [random.random() < 0.5] *)
Definition random_lt_half (g : Rng) : bool * Rng :=
  let '(r, g') := next_raw g in (Z.even r, g').

(** [random.choice(seq)] *)
Definition choice {A} (l : list A) (g : Rng) : result (A * Rng) :=
  match l with
  | [] => Raise IndexError
  | a :: _ =>
      let '(r, g') := next_raw g in
      Ok (nth (Z.to_nat (r mod Z.of_nat (length l))) l a, g')
  end.

(** [random.randint(a, b)], both ends included *)
Definition randint (a b : Z) (g : Rng) : result (Z * Rng) :=
  if b <? a then Raise ValueError
  else let '(r, g') := next_raw g in Ok (a + r mod (b - a + 1), g').

(** [random.randrange(n)] *)
Definition randrange (n : Z) (g : Rng) : result (Z * Rng) :=
  if n <=? 0 then Raise ValueError
  else let '(r, g') := next_raw g in Ok (r mod n, g').

(** ** The canvas *)

Inductive call : Type :=
| CreateText (id : nat) (x_px y_px : Z) (text : string)
| Delete (id : nat)
| DeleteAll.

Record Canvas : Type := mkCanvas { next_id : nat; calls : list call }.

(** [canvas.create_text(x_px, y_px, anchor='nw', text=text, fill='green', font=self.font)] *)
Definition create_text (x_px y_px : Z) (text : string) (cv : Canvas) : nat * Canvas :=
  (next_id cv,
   mkCanvas (S (next_id cv)) (calls cv ++ [CreateText (next_id cv) x_px y_px text])).

(** [canvas.delete(item_id)] *)
Definition canvas_delete (id : nat) (cv : Canvas) : Canvas :=
  mkCanvas (next_id cv) (calls cv ++ [Delete id]).

(** [canvas.delete("all")] *)
Definition canvas_delete_all (cv : Canvas) : Canvas :=
  mkCanvas (next_id cv) (calls cv ++ [DeleteAll]).

(** ** Glyph text *)

Definition digits : string := "0123456789".
Definition ascii_lowercase : string := "abcdefghijklmnopqrstuvwxyz".
Definition ascii_uppercase : string := "ABCDEFGHIJKLMNOPQRSTUVWXYZ".
Definition ascii_letters : string := (ascii_lowercase ++ ascii_uppercase)%string.
Definition punctuation : string :=
  ("!" ++ String (ascii_of_nat 34) "#$%&'()*+,-./:;<=>?@[\]^_`{|}~")%string.
Definition whitespace : string :=
  String " " (String (ascii_of_nat 9) (String (ascii_of_nat 10)
    (String (ascii_of_nat 13) (String (ascii_of_nat 11)
      (String (ascii_of_nat 12) EmptyString))))).

(** [string.printable] *)
Definition printable : string :=
  (digits ++ ascii_letters ++ punctuation ++ whitespace)%string.

(** [c in s] for a one-character [c] *)
Fixpoint char_in (c : ascii) (s : string) : bool :=
  match s with
  | EmptyString => false
  | String c' s' => Ascii.eqb c c' || char_in c s'
  end.

(** [chr(byte)] *)
Definition chr (b : byte) : ascii := ascii_of_byte b.

Definition vt_ff : string :=
  String (ascii_of_nat 11) (String (ascii_of_nat 12) EmptyString).

Definition hex_digit (n : N) : ascii :=
  match n with
  | 0%N => "0" | 1%N => "1" | 2%N => "2" | 3%N => "3"
  | 4%N => "4" | 5%N => "5" | 6%N => "6" | 7%N => "7"
  | 8%N => "8" | 9%N => "9" | 10%N => "A" | 11%N => "B"
  | 12%N => "C" | 13%N => "D" | 14%N => "E" | _ => "F"
  end%char.

(** [f"{byte:02X}"] *)
Definition format_02X (b : byte) : string :=
  let n := Byte.to_N b in
  String (hex_digit (n / 16)) (String (hex_digit (n mod 16)) EmptyString).

(** The text drawn for one byte by a drop whose mode is [mode]. *)
Definition glyph_text (mode : string) (b : byte) : string :=
  if String.eqb mode "ascii" then
    let ch :=
      if char_in (chr b) printable && negb (char_in (chr b) vt_ff)
      then chr b else "."%char in
    String ch EmptyString
  else format_02X b.

(** ** Python list primitives *)

(** [l[i]]: a negative index counts from the end *)
Definition py_get {A} (l : list A) (i : Z) : result A :=
  let n := Z.of_nat (length l) in
  let j := if i <? 0 then i + n else i in
  if (0 <=? j) && (j <? n) then
    match l !! Z.to_nat j with
    | Some a => Ok a
    | None => Raise IndexError
    end
  else Raise IndexError.

(** [l[i] = v] *)
Definition py_set {A} (l : list A) (i : Z) (v : A) : result (list A) :=
  let n := Z.of_nat (length l) in
  let j := if i <? 0 then i + n else i in
  if (0 <=? j) && (j <? n) then Ok (<[Z.to_nat j := v]> l) else Raise IndexError.

(** [l[a:b]]: both ends are clamped to the list *)
Definition py_slice {A} (l : list A) (a b : Z) : list A :=
  let n := Z.of_nat (length l) in
  let norm i := if i <? 0 then Z.max 0 (i + n) else Z.min i n in
  take (Z.to_nat (norm b - norm a)) (drop (Z.to_nat (norm a)) l).

(** [any(l)] *)
Definition any (l : list bool) : bool := existsb (fun b => b) l.

(** [a // b] and [a % b] *)
Definition py_floordiv (a b : Z) : result Z :=
  if b =? 0 then Raise ZeroDivisionError else Ok (a / b).
Definition py_mod (a b : Z) : result Z :=
  if b =? 0 then Raise ZeroDivisionError else Ok (a mod b).

(** ** Application state *)

(** One entry of [self.drops]. *)
Record Drop : Type := mkDrop {
  drop_x : Z;          (* "x": column index *)
  drop_y : Z;          (* "y": row of the head *)
  drop_width : Z;      (* "width" *)
  drop_tail : Z;       (* "tail" *)
  drop_index : Z;      (* "index": file index *)
  drop_mode : string   (* "mode" *)
}.

(** The attributes of [MatrixRainGUI] the engine reads or writes, the
    canvas widget and the state of the global random generator. *)
Record gui : Type := mkGui {
  file_data : option (list byte);
  file_size : Z;
  min_tail : Z;
  max_tail : Z;
  drops : list Drop;
  drop_items : list (list nat);
  running : bool;
  mode_var : string;
  char_width : Z;
  char_height : Z;
  cols : Z;
  rows : Z;
  canvas : Canvas;
  after_id : bool;     (* whether [_after_id] holds a scheduled frame *)
  random : Rng
}.

Definition set_alloc (st : gui) (ds : list Drop) (its : list (list nat)) (g : Rng) : gui :=
  mkGui (file_data st) (file_size st) (min_tail st) (max_tail st) ds its
        (running st) (mode_var st) (char_width st) (char_height st)
        (cols st) (rows st) (canvas st) (after_id st) g.

Definition set_frame (st : gui) (ds : list Drop) (its : list (list nat))
    (cv : Canvas) (g : Rng) : gui :=
  mkGui (file_data st) (file_size st) (min_tail st) (max_tail st) ds its
        (running st) (mode_var st) (char_width st) (char_height st)
        (cols st) (rows st) cv true g.

Definition set_dimensions (st : gui) (c r : Z) : gui :=
  mkGui (file_data st) (file_size st) (min_tail st) (max_tail st) (drops st)
        (drop_items st) (running st) (mode_var st) (char_width st)
        (char_height st) c r (canvas st) (after_id st) (random st).

Definition set_running (st : gui) (b : bool) : gui :=
  mkGui (file_data st) (file_size st) (min_tail st) (max_tail st) (drops st)
        (drop_items st) b (mode_var st) (char_width st)
        (char_height st) (cols st) (rows st) (canvas st) (after_id st) (random st).

Definition set_file (st : gui) (data : list byte) : gui :=
  mkGui (Some data) (Z.of_nat (length data)) (min_tail st) (max_tail st) (drops st)
        (drop_items st) (running st) (mode_var st) (char_width st)
        (char_height st) (cols st) (rows st) (canvas st) (after_id st) (random st).

Definition set_mode (st : gui) (m : string) : gui :=
  mkGui (file_data st) (file_size st) (min_tail st) (max_tail st) (drops st)
        (drop_items st) (running st) m (char_width st)
        (char_height st) (cols st) (rows st) (canvas st) (after_id st) (random st).

(** [canvas.delete("all"); self.drops = []; self.drop_items = []]; the
    [after_cancel] before it acts on the timer only. *)
Definition clear_rain (st : gui) : gui :=
  mkGui (file_data st) (file_size st) (min_tail st) (max_tail st) [] []
        (running st) (mode_var st) (char_width st) (char_height st)
        (cols st) (rows st) (canvas_delete_all (canvas st)) (after_id st) (random st).

(** ** The allocator: [_create_drops] *)

Section Allocator.
Variables (cols rows min_tail max_tail file_size : Z) (mode : string).

(** Lines 172-181: the width of a drop attempted at column [x]. *)
Definition alloc_width (x : Z) (g : Rng) : result (Z * Rng) :=
  if String.eqb mode "hex" then Ok (2, g)
  else if String.eqb mode "ascii" then Ok (1, g)
  else
    '(c, g') <- choice [true; false] g ;;
    Ok (if c && (x <? cols - 1) then 2 else 1, g').

(** Lines 191-192: [for i in range(width): occupied[x + i] = True]. *)
Definition mark_occupied (occupied : list bool) (x width : Z) : result (list bool) :=
  fold_left (fun acc i => occ <- acc ;; py_set occ (x + Z.of_nat i) true)
            (seq 0 (Z.to_nat width)) (Ok occupied).

(** Lines 194-204: the dictionary of a new drop. *)
Definition new_drop (x width : Z) (g : Rng) : result (Drop * Rng) :=
  '(r, g1) <- randint 0 rows g ;;
  '(t, g2) <- randint min_tail max_tail g1 ;;
  '(ix, g3) <- randrange file_size g2 ;;
  if String.eqb mode "mixed" then
    '(m, g4) <- choice ["ascii"%string; "hex"%string] g3 ;;
    Ok (mkDrop x (- r) width t ix m, g4)
  else Ok (mkDrop x (- r) width t ix mode, g3).

(** Lines 168-210: the sweep [while x < self.cols]. *)
Fixpoint create_loop (fuel : nat) (x : Z) (occupied : list bool)
    (ds : list Drop) (its : list (list nat)) (g : Rng)
    : result (list Drop * list (list nat) * Rng) :=
  if x <? cols then
    match fuel with
    | O => Raise OutOfFuel
    | S fuel' =>
        let '(b, g1) := random_lt_half g in
        if b then
          '(width, g2) <- alloc_width x g1 ;;
          if (width =? 2) && (x >=? cols - 1) then
            create_loop fuel' (x + 1) occupied ds its g2
          else if any (py_slice occupied x (x + width)) then
            create_loop fuel' (x + 1) occupied ds its g2
          else
            occupied' <- mark_occupied occupied x width ;;
            '(d, g3) <- new_drop x width g2 ;;
            create_loop fuel' (x + width) occupied' (ds ++ [d]) (its ++ [[]]) g3
        else create_loop fuel' (x + 1) occupied ds its g1
    end
  else Ok (ds, its, g).
End Allocator.

Definition create_drops (st : gui) : result gui :=
  if (cols st <? 1) || (rows st <? 1) then Ok st
  else
    let occupied := repeat false (Z.to_nat (cols st)) in
    '(ds, its, g) <- create_loop (cols st) (rows st) (min_tail st) (max_tail st)
                       (file_size st) (mode_var st)
                       (Z.to_nat (cols st)) 0 occupied [] [] (random st) ;;
    Ok (set_alloc st ds its g).

(** ** The animator: [_update_rain] *)

Section Animator.
Variables (cols rows min_tail max_tail file_size char_width char_height : Z).
Variables (global_mode : string) (file_data : option (list byte)).

(** Lines 222-230: the width of a recycled drop. *)
Definition recycle_width (d : Drop) (g : Rng) : result (Z * Rng) :=
  if String.eqb global_mode "mixed" then
    '(w, g') <- choice [1; 2] g ;;
    Ok (if (w =? 2) && (cols <? 2) then 1 else w, g')
  else if String.eqb global_mode "ascii" then Ok (1, g)
  else if String.eqb global_mode "hex" then Ok (2, g)
  else Ok (drop_width d, g).

(** Lines 245-247: every item of the drop is deleted from the canvas. *)
Definition release_all (items : list nat) (cv : Canvas) : Canvas :=
  fold_left (fun c item_id => canvas_delete item_id c) items cv.

(** Lines 220-248: the body of the recycle branch. *)
Definition recycle (d : Drop) (items : list nat) (cv : Canvas) (g : Rng)
    : result (Drop * list nat * Canvas * Rng) :=
  '(width, g1) <- recycle_width d g ;;
  let max_x := Z.max 0 (cols - width) in
  '(x, g2) <- (if max_x >? 0 then randint 0 max_x g1 else Ok (0, g1)) ;;
  '(r, g3) <- randint 0 rows g2 ;;
  '(t, g4) <- randint min_tail max_tail g3 ;;
  '(ix, g5) <- randrange file_size g4 ;;
  '(m, g6) <- (if String.eqb global_mode "mixed"
               then choice ["ascii"%string; "hex"%string] g5
               else Ok (global_mode, g5)) ;;
  Ok (mkDrop x (- r) width t ix m, [], release_all items cv, g6).

(** Lines 252-276: draw the head at row [y] when it is on screen. *)
Definition render (d : Drop) (y : Z) (items : list nat) (cv : Canvas)
    : result (Z * list nat * Canvas) :=
  if (0 <=? y) && (y <? rows) then
    data <- match file_data with
            | Some data => Ok data
            | None => Raise TypeError
            end ;;
    byte <- py_get data (drop_index d) ;;
    let text := glyph_text (drop_mode d) byte in
    let x_px := drop_x d * char_width in
    let y_px := y * char_height in
    let '(item_id, cv') := create_text x_px y_px text cv in
    ix <- py_mod (drop_index d + 1) file_size ;;
    Ok (ix, items ++ [item_id], cv')
  else Ok (drop_index d, items, cv).

(** Lines 280-282: [while len(items) > tail: canvas.delete(items.pop(0))]. *)
Fixpoint trim (tail : Z) (items : list nat) (cv : Canvas)
    : result (list nat * Canvas) :=
  if Z.of_nat (length items) >? tail then
    match items with
    | [] => Raise IndexError
    | old_item :: rest => trim tail rest (canvas_delete old_item cv)
    end
  else Ok (items, cv).

(** Lines 250-282: the body after the recycle branch. *)
Definition advance (d : Drop) (items : list nat) (cv : Canvas) (g : Rng)
    : result (Drop * list nat * Canvas * Rng) :=
  let y := drop_y d + 1 in
  '(ix, items1, cv1) <- render d y items cv ;;
  '(items2, cv2) <- trim (drop_tail d) items1 cv1 ;;
  Ok (mkDrop (drop_x d) y (drop_width d) (drop_tail d) ix (drop_mode d),
      items2, cv2, g).

(** Lines 219-282: one iteration of the loop over the drops. *)
Definition update_drop (d : Drop) (items : list nat) (cv : Canvas) (g : Rng)
    : result (Drop * list nat * Canvas * Rng) :=
  if drop_y d - drop_tail d >=? rows then recycle d items cv g
  else advance d items cv g.

(** Line 217: [for i, drop in enumerate(self.drops)], from index [i] on. *)
Fixpoint update_loop (i : nat) (ds : list Drop) (all_items : list (list nat))
    (cv : Canvas) (g : Rng)
    : result (list Drop * list (list nat) * Canvas * Rng) :=
  match ds with
  | [] => Ok ([], all_items, cv, g)
  | d :: rest =>
      items <- py_get all_items (Z.of_nat i) ;;
      '(d', items', cv', g') <- update_drop d items cv g ;;
      '(rest', all_items', cv'', g'') <-
          update_loop (S i) rest (<[i := items']> all_items) cv' g' ;;
      Ok (d' :: rest', all_items', cv'', g'')
  end.
End Animator.

Definition update_rain (st : gui) : result gui :=
  if negb (running st) then Ok st
  else
    '(ds, its, cv, g) <- update_loop (cols st) (rows st) (min_tail st) (max_tail st)
                           (file_size st) (char_width st) (char_height st)
                           (mode_var st) (file_data st)
                           0 (drops st) (drop_items st) (canvas st) (random st) ;;
    Ok (set_frame st ds its cv g).

(** ** Host callbacks *)

(** [_init_canvas_dimensions], given what [winfo_width] and [winfo_height]
    report. *)
Definition init_canvas_dimensions (winfo_width winfo_height : Z) (st : gui)
    : result gui :=
  let width_px := Z.max 1 winfo_width in
  let height_px := Z.max 1 winfo_height in
  c <- py_floordiv width_px (char_width st) ;;
  r <- py_floordiv height_px (char_height st) ;;
  let st1 := set_dimensions st c r in
  match file_data st1 with
  | Some _ => create_drops st1
  | None => Ok st1
  end.

(** [_reset_rain] *)
Definition reset_rain (winfo_width winfo_height : Z) (st : gui) : result gui :=
  let st1 := clear_rain st in
  match file_data st1 with
  | None => Ok st1
  | Some _ =>
      st2 <- init_canvas_dimensions winfo_width winfo_height st1 ;;
      st3 <- create_drops st2 ;;
      update_rain (set_running st3 true)
  end.

(** What the file dialog and the read of the chosen file produce. *)
Inductive selection : Type :=
| Cancelled
| Unreadable
| Contents (data : list byte).

(** [open_file] *)
Definition open_file (sel : selection) (winfo_width winfo_height : Z) (st : gui)
    : result gui :=
  match sel with
  | Cancelled => Ok st
  | Unreadable => Ok st
  | Contents [] => Ok st
  | Contents data => reset_rain winfo_width winfo_height (set_file st data)
  end.

(** The mode combobox: the selection is stored in [mode_var], then the
    binding of [<<ComboboxSelected>>] runs [_reset_rain]. *)
Definition select_mode (m : string) (winfo_width winfo_height : Z) (st : gui)
    : result gui :=
  reset_rain winfo_width winfo_height (set_mode st m).

(** [n] consecutive frames. *)
Fixpoint ticks (n : nat) (st : gui) : result gui :=
  match n with
  | O => Ok st
  | S n' => st' <- update_rain st ;; ticks n' st'
  end.

(** ** Reading the glyph text back *)

(** The byte values whose character the ASCII branch keeps: the visible
    ASCII range with the space, and tab, newline and carriage return. *)
Definition kept_code (n : N) : bool :=
  ((32 <=? n) && (n <=? 126) || (n =? 9) || (n =? 10) || (n =? 13))%N.

(** The value of an upper-case hexadecimal digit. *)
Definition hex_value (c : ascii) : option N :=
  let n := N_of_ascii c in
  if ((48 <=? n) && (n <=? 57))%N then Some (n - 48)%N
  else if ((65 <=? n) && (n <=? 70))%N then Some (n - 55)%N
  else None.

(** A two-character upper-case hexadecimal numeral. *)
Definition parse_hex2 (s : string) : option N :=
  match s with
  | String h (String l EmptyString) =>
      match hex_value h, hex_value l with
      | Some a, Some b => Some (16 * a + b)%N
      | _, _ => None
      end
  | _ => None
  end.

(** ** Invariants and the vocabulary of the statements *)

(** What every entry of [self.drops] satisfies between frames. *)
Record drop_ok (cols file_size min_tail max_tail : Z) (global_mode : string)
    (d : Drop) : Prop := mkDropOk {
  ok_left : 0 <= drop_x d;
  ok_right : drop_x d + drop_width d <= cols;
  ok_width : drop_width d = 1 \/ drop_width d = 2;
  ok_index : 0 <= drop_index d < file_size;
  ok_tail : min_tail <= drop_tail d <= max_tail;
  ok_hex : global_mode = "hex"%string -> drop_width d = 2
}.

(** What the sweep has established for a drop once it stands at [bound]. *)
Definition placed (cols rows min_tail max_tail file_size : Z) (mode : string)
    (bound : Z) (d : Drop) : Prop :=
  drop_ok cols file_size min_tail max_tail mode d /\
  drop_x d + drop_width d <= bound /\
  - rows <= drop_y d <= 0 /\
  (mode = "ascii"%string -> drop_width d = 1).

(** The columns [column, column + width) a drop claims. *)
Definition claims_column (d : Drop) (c : Z) : Prop :=
  drop_x d <= c < drop_x d + drop_width d.

(** No column is claimed by two different entries of the list. *)
Definition pairwise_disjoint (ds : list Drop) : Prop :=
  forall i j d1 d2, i <> j -> ds !! i = Some d1 -> ds !! j = Some d2 ->
    forall c, ~ (claims_column d1 c /\ claims_column d2 c).

(** Left to right: every drop ends before the next ones start. *)
Definition ranges_ordered (ds : list Drop) : Prop :=
  forall i j d1 d2, (i < j)%nat -> ds !! i = Some d1 -> ds !! j = Some d2 ->
    drop_x d1 + drop_width d1 <= drop_x d2.

(** A file is loaded and the tail range is a range of lengths. *)
Record config_ok (st : gui) : Prop := mkConfigOk {
  cfg_data : exists data,
      file_data st = Some data /\ file_size st = Z.of_nat (length data);
  cfg_size : 1 <= file_size st;
  cfg_tails : 0 <= min_tail st <= max_tail st
}.

Definition st_drop_ok (st : gui) : Drop -> Prop :=
  drop_ok (cols st) (file_size st) (min_tail st) (max_tail st) (mode_var st).

(** The states the animator runs on. *)
Record wf (st : gui) : Prop := mkWf {
  wf_config : config_ok st;
  wf_grid : drops st = [] \/ 0 <= rows st;
  wf_items : length (drop_items st) = length (drops st);
  wf_drops : Forall (st_drop_ok st) (drops st)
}.

Definition st_placed (st : gui) : Drop -> Prop :=
  placed (cols st) (rows st) (min_tail st) (max_tail st) (file_size st)
         (mode_var st) (cols st).

Definition st_update_drop (st : gui) :
    Drop -> list nat -> Canvas -> Rng -> result (Drop * list nat * Canvas * Rng) :=
  update_drop (cols st) (rows st) (min_tail st) (max_tail st) (file_size st)
              (char_width st) (char_height st) (mode_var st) (file_data st).

(** [iteration st st' k d its d' its' emitted draws]: in the frame from
    [st] to [st'] the loop body ran on drop [k], turning the drop [d] with
    items [its] into [d'] with [its'], sending [emitted] to the canvas and
    taking [draws] raw values from the generator. *)
Definition iteration (st st' : gui) (k : nat) (d : Drop) (its : list nat)
    (d' : Drop) (its' : list nat) (emitted : list call) (draws : nat) : Prop :=
  exists cvk gk cvk' gk',
    st_update_drop st d its cvk gk = Ok (d', its', cvk', gk') /\
    drops st' !! k = Some d' /\ drop_items st' !! k = Some its' /\
    calls cvk' = calls cvk ++ emitted /\
    calls (canvas st) `prefix_of` calls cvk /\
    calls cvk' `prefix_of` calls (canvas st') /\
    stream gk = stream (random st) /\ draws = (pos gk' - pos gk)%nat.

(** What the recycle branch leaves behind: no items, one [Delete] per
    former item and nothing else on the canvas, fresh random parameters,
    and a head at or above the top row. *)
Definition recycled (d : Drop) (its : list nat) (d' : Drop) (its' : list nat)
    (emitted : list call) (draws : nat) : Prop :=
  its' = [] /\ emitted = map Delete its /\ (3 <= draws)%nat /\ drop_y d' <= 0.

(** What the other branch leaves behind: the head one row lower, the
    column, width, tail and mode untouched, no random draw. *)
Definition advanced (d : Drop) (d' : Drop) (draws : nat) : Prop :=
  drop_y d' = drop_y d + 1 /\ drop_x d' = drop_x d /\
  drop_width d' = drop_width d /\ drop_tail d' = drop_tail d /\
  drop_mode d' = drop_mode d /\ draws = 0%nat.

(** The state [__init__] leaves: no file, no drops, an ordered tail range. *)
Definition startup (st : gui) : Prop :=
  file_data st = None /\ drops st = [] /\ drop_items st = [] /\
  0 <= min_tail st <= max_tail st.

(** From there the user opens files and selects modes and the timer runs
    frames; a step is a callback that returned. Frames always return from
    such a state, and so do the two other callbacks unless the font
    reports a character size of zero, in which case [_reset_rain] stops
    right after it has emptied the drop list. *)
Inductive reachable : gui -> Prop :=
| reach_startup st : startup st -> reachable st
| reach_open st sel w h st' :
    reachable st -> open_file sel w h st = Ok st' -> reachable st'
| reach_mode st m w h st' :
    reachable st -> select_mode m w h st = Ok st' -> reachable st'
| reach_tick st st' :
    reachable st -> update_rain st = Ok st' -> reachable st'.

Definition inv (st : gui) : Prop :=
  startup st \/ wf st.

(** The texts of the glyphs a canvas was asked to draw, in order. *)
Definition drawn_texts (cs : list call) : list string :=
  flat_map (fun c => match c with
                     | CreateText _ _ _ text => [text]
                     | _ => []
                     end) cs.

(** The test of line 219 on drop [k], in a state whose frames run. *)
Definition recycle_due (st : gui) (k : nat) : bool :=
  running st &&
  match drops st !! k with
  | Some d => drop_y d - drop_tail d >=? rows st
  | None => false
  end.

(** Drop [k] takes the recycle branch in one of the next [n] frames. *)
Fixpoint recycled_within (n : nat) (st : gui) (k : nat) : bool :=
  match n with
  | O => false
  | S n' =>
      recycle_due st k ||
      match update_rain st with
      | Ok st' => recycled_within n' st' k
      | Raise _ => false
      end
  end.

Definition all_recycled_within (n : nat) (st : gui) : Prop :=
  forall k, (k < length (drops st))%nat -> recycled_within n st k = true.

(** C7 read literally: after the frame every drop is one row lower. *)
Definition advances_every_drop (st st' : gui) : Prop :=
  forall k d, drops st !! k = Some d ->
    exists d', drops st' !! k = Some d' /\ drop_y d' = drop_y d + 1.

(** The grid of the end-to-end scenario: four columns, ten rows, ASCII
    mode, a file of 100 bytes, tails of length two, frames running. *)
Definition scenario (st : gui) : Prop :=
  cols st = 4 /\ rows st = 10 /\ mode_var st = "ascii"%string /\
  file_size st = 100 /\
  (exists data, file_data st = Some data /\ length data = 100%nat) /\
  min_tail st = 2 /\ max_tail st = 2 /\ running st = true.

(** The scenario with a generator whose raw draws are all zero. *)
Definition scenario_zero : gui :=
  mkGui (Some (repeat x41 100)) 100 2 2 [] [] true "ascii" 10 20 4 10
        (mkCanvas 1 []) false (mkRng (fun _ => 0) 0).

(** A window one column wide and ten rows high, in ASCII mode, before a
    file is opened, with a generator whose raw draws are all zero. *)
Definition abc_start : gui :=
  mkGui None 0 5 15 [] [] false "ascii" 10 20 0 0 (mkCanvas 1 []) false
        (mkRng (fun _ => 0) 0).

(** The three-byte file just opened in the one-column window: the reset
    has allocated one drop and run the first frame. *)
Definition abc_opened : gui :=
  Eval vm_compute in
    match open_file (Contents [x41; x42; x43]) 10 200 abc_start with
    | Ok st => st
    | Raise _ => abc_start
    end.

(** Fourteen frames later the tail of the drop has left the grid. *)
Definition abc_due : gui :=
  Eval vm_compute in
    match ticks 14 abc_opened with
    | Ok st => st
    | Raise _ => abc_start
    end.

(** The frame after that recycles the drop. *)
Definition abc_recycled : gui :=
  Eval vm_compute in
    match update_rain abc_due with
    | Ok st => st
    | Raise _ => abc_start
    end.

(** ** The application from its construction *)

(** [__init__]: what the constructor stores, given the two measurements
    of the font and the state of the global generator. The canvas is new;
    [cols] and [rows] are not attributes yet, the 0 here is overwritten by
    [_init_canvas_dimensions] before anything reads it. *)
Definition new_gui (measure_0 linespace : Z) (g : Rng) : gui :=
  mkGui None 0 5 15 [] [] false "mixed" measure_0 linespace 0 0
        (mkCanvas 1 []) false g.

(** The constructor followed by the call of [_init_canvas_dimensions] it
    schedules with [after(100, ...)], taken to run before the first file
    is opened. *)
Definition start_gui (measure_0 linespace winfo_width winfo_height : Z)
    (g : Rng) : result gui :=
  init_canvas_dimensions winfo_width winfo_height (new_gui measure_0 linespace g).

(** What the main loop dispatches afterwards. *)
Inductive callback : Type :=
| OpenFile (sel : selection) (winfo_width winfo_height : Z)
| SelectMode (m : string) (winfo_width winfo_height : Z)
| Frame.

Definition run_callback (cb : callback) (st : gui) : result gui :=
  match cb with
  | OpenFile sel w h => open_file sel w h st
  | SelectMode m w h => select_mode m w h st
  | Frame => update_rain st
  end.

Fixpoint run (cbs : list callback) (st : gui) : result gui :=
  match cbs with
  | [] => Ok st
  | cb :: rest => st' <- run_callback cb st ;; run rest st'
  end.

(** The items a canvas holds after the calls it received. *)
Definition apply_call (s : gset nat) (c : call) : gset nat :=
  match c with
  | CreateText id _ _ _ => s ∪ {[id]}
  | Delete id => s ∖ {[id]}
  | DeleteAll => ∅
  end.

Definition live (cv : Canvas) : gset nat := fold_left apply_call (calls cv) ∅.

(** The item lists account for the canvas: an id is on the canvas exactly
    when some list holds it, no list holds an id twice, no two lists share
    one, and the canvas has not handed out the ids from [next_id] on. *)
Record tracked (all_items : list (list nat)) (cv : Canvas) : Prop := mkTracked {
  tr_live : forall id,
      id ∈ live cv <-> exists k its, all_items !! k = Some its /\ id ∈ its;
  tr_nodup : forall k its, all_items !! k = Some its -> NoDup its;
  tr_apart : forall k k' its its' id,
      all_items !! k = Some its -> all_items !! k' = Some its' ->
      id ∈ its -> id ∈ its' -> k = k';
  tr_fresh : forall id, id ∈ live cv -> (id < next_id cv)%nat
}.

(** A call a frame may make: deleting one item, or drawing the glyph of a
    byte of the file in a cell of the grid. *)
Definition glyph_in_grid (st : gui) (c : call) : Prop :=
  match c with
  | CreateText _ x_px y_px text =>
      exists col row data b m,
        0 <= col < cols st /\ 0 <= row < rows st /\
        x_px = col * char_width st /\ y_px = row * char_height st /\
        file_data st = Some data /\ b ∈ data /\ text = glyph_text m b
  | Delete _ => True
  | DeleteAll => False
  end.

(** Mode, width and head row of a drop against the selected mode and the
    grid. *)
Record drop_fit (st : gui) (d : Drop) : Prop := mkDropFit {
  fit_mode : mode_var st <> "mixed"%string -> drop_mode d = mode_var st;
  fit_mixed : mode_var st = "mixed"%string ->
              drop_mode d = "ascii"%string \/ drop_mode d = "hex"%string;
  fit_ascii : mode_var st = "ascii"%string -> drop_width d = 1;
  fit_rows : - rows st <= drop_y d <= rows st + drop_tail d
}.

(** What holds between callbacks of an application built by [__init__]:
    the invariant of the reachable states, every drop fits mode and grid,
    the item lists account for the canvas and are no longer than the
    tails, frames run exactly when a file is loaded, and the tail range is
    the one the constructor set. *)
Record steady (st : gui) : Prop := mkSteady {
  sd_inv : inv st;
  sd_fit : Forall (drop_fit st) (drops st);
  sd_tracked : tracked (drop_items st) (canvas st);
  sd_bound : forall k d its,
      drops st !! k = Some d -> drop_items st !! k = Some its ->
      Z.of_nat (length its) <= drop_tail d;
  sd_running : running st = true <-> file_data st <> None;
  sd_tails : min_tail st = 5 /\ max_tail st = 15
}.

(** A generator whose raw draws are all zero. *)
Definition zero_rng : Rng := mkRng (fun _ => 0) 0.

(** The application started in a window one column wide and ten rows
    high. *)
Definition demo_start : gui :=
  Eval vm_compute in
    match start_gui 10 20 10 200 zero_rng with
    | Ok st => st
    | Raise _ => new_gui 10 20 zero_rng
    end.

(** ASCII mode is selected, the three-byte file is opened, two frames
    run. *)
Definition demo_callbacks : list callback :=
  [SelectMode "ascii" 10 200; OpenFile (Contents [x41; x42; x43]) 10 200;
   Frame; Frame].

Definition demo_state : gui :=
  Eval vm_compute in
    match run demo_callbacks demo_start with
    | Ok st => st
    | Raise _ => demo_start
    end.


(** ** Facts about the primitives *)

Lemma randint_spec a b g :
  a <= b ->
  exists v, randint a b g = Ok (v, advance_rng g) /\ a <= v <= b.
Proof.
  intros Hab. unfold randint, next_raw, advance_rng.
  destruct (Z.ltb_spec b a) as [Hlt|_]; [lia|].
  eexists; split; [reflexivity|].
  pose proof (Z.mod_pos_bound (stream g (pos g)) (b - a + 1)). lia.
Qed.

Lemma randrange_spec n g :
  1 <= n ->
  exists v, randrange n g = Ok (v, advance_rng g) /\ 0 <= v < n.
Proof.
  intros Hn. unfold randrange, next_raw, advance_rng.
  destruct (Z.leb_spec n 0) as [Hle|_]; [lia|].
  eexists; split; [reflexivity|].
  apply Z.mod_pos_bound; lia.
Qed.

Lemma choice_pair {A} (a b : A) g :
  exists v, choice [a; b] g = Ok (v, advance_rng g) /\ (v = a \/ v = b).
Proof.
  unfold choice, next_raw, advance_rng. eexists; split; [reflexivity|].
  pose proof (Z.mod_pos_bound (stream g (pos g)) 2 ltac:(lia)) as Hb.
  simpl length. change (Z.of_nat 2) with 2.
  destruct (Z.to_nat (stream g (pos g) mod 2)) as [|[|k]] eqn:E; simpl; auto.
  lia.
Qed.

Lemma glyph_ascii_kept (b : byte) :
  glyph_text "ascii" b =
  if kept_code (Byte.to_N b) then String (chr b) EmptyString else "."%string.
Proof. destruct b; reflexivity. Qed.

Lemma glyph_hex_parse (b : byte) :
  parse_hex2 (glyph_text "hex" b) = Some (Byte.to_N b).
Proof. destruct b; reflexivity. Qed.

Lemma py_get_nat {A} (l : list A) (i : nat) (a : A) :
  l !! i = Some a -> py_get l (Z.of_nat i) = Ok a.
Proof.
  intros H. pose proof (lookup_lt_Some _ _ _ H) as Hlt. unfold py_get.
  destruct (Z.ltb_spec (Z.of_nat i) 0) as [?|_]; [lia|].
  destruct (Z.leb_spec 0 (Z.of_nat i)) as [_|?]; [|lia].
  destruct (Z.ltb_spec (Z.of_nat i) (Z.of_nat (length l))) as [_|?]; [|lia].
  simpl. by rewrite Nat2Z.id, H.
Qed.

Lemma py_get_in_range {A} (l : list A) (i : Z) :
  0 <= i < Z.of_nat (length l) ->
  exists a, l !! Z.to_nat i = Some a /\ py_get l i = Ok a.
Proof.
  intros Hi. destruct (lookup_lt_is_Some_2 l (Z.to_nat i)) as [a Ha]; [lia|].
  exists a. split; [done|]. rewrite <- (Z2Nat.id i) by lia. by apply py_get_nat.
Qed.

Lemma py_set_ok {A} (l : list A) (i : Z) (v : A) :
  0 <= i < Z.of_nat (length l) -> py_set l i v = Ok (<[Z.to_nat i := v]> l).
Proof.
  intros Hi. unfold py_set.
  destruct (Z.ltb_spec i 0); [lia|].
  destruct (Z.leb_spec 0 i); [|lia].
  destruct (Z.ltb_spec i (Z.of_nat (length l))); [|lia].
  done.
Qed.

(** ** Facts about one iteration of the frame loop *)

Section AnimatorFacts.
Variables (cols rows min_tail max_tail file_size char_width char_height : Z).
Variables (global_mode : string) (data : list byte).
Hypothesis Hsize : file_size = Z.of_nat (length data).
Hypothesis Hpos : 1 <= file_size.
Hypothesis Htails : 0 <= min_tail <= max_tail.
Hypothesis Hrows : 0 <= rows.

Let ok := drop_ok cols file_size min_tail max_tail global_mode.
Let recycle' := recycle cols rows min_tail max_tail file_size global_mode.
Let render' := render rows file_size char_width char_height (Some data).
Let advance' := advance rows file_size char_width char_height (Some data).
Let update_drop' :=
  update_drop cols rows min_tail max_tail file_size char_width char_height
              global_mode (Some data).

Lemma release_all_calls items cv :
  release_all items cv = mkCanvas (next_id cv) (calls cv ++ map Delete items).
Proof.
  revert cv. induction items as [|it items IH]; intros cv; simpl.
  - rewrite app_nil_r. by destruct cv.
  - unfold release_all in IH. rewrite IH. simpl. by rewrite <- app_assoc.
Qed.

Lemma recycle_width_spec d g :
  ok d ->
  exists w g', recycle_width cols global_mode d g = Ok (w, g') /\
    (w = 1 \/ w = 2) /\ w <= cols /\ (global_mode = "hex"%string -> w = 2) /\
    stream g' = stream g /\ (pos g <= pos g' <= S (pos g))%nat.
Proof.
  intros [Hl Hr Hw _ _ Hh]. unfold recycle_width.
  destruct (String.eqb_spec global_mode "mixed") as [Hm|Hm].
  - destruct (choice_pair 1 2 g) as (v & -> & Hv). simpl.
    eexists _, _. split; [reflexivity|]. subst global_mode.
    destruct Hv as [->| ->]; simpl.
    + repeat split; try lia; auto; discriminate.
    + destruct (Z.ltb_spec cols 2); repeat split; try lia; auto; discriminate.
  - destruct (String.eqb_spec global_mode "ascii") as [Ha|Ha].
    + eexists _, _. split; [reflexivity|]. subst global_mode.
      repeat split; try lia; auto; discriminate.
    + destruct (String.eqb_spec global_mode "hex") as [Hx|Hx].
      * eexists _, _. split; [reflexivity|]. specialize (Hh Hx).
        repeat split; try lia; auto.
      * eexists _, _. split; [reflexivity|].
        repeat split; try lia; auto.
Qed.

(** The recycle branch succeeds on a well-formed drop and returns a
    well-formed drop above the top row, an empty item list, and a canvas
    that received one [Delete] per former item. *)
Lemma recycle_spec d items cv g :
  ok d ->
  exists d' g',
    recycle' d items cv g =
      Ok (d', [], mkCanvas (next_id cv) (calls cv ++ map Delete items), g') /\
    ok d' /\ - rows <= drop_y d' <= 0 /\
    0 <= drop_x d' <= cols - drop_width d' /\
    (cols - drop_width d' <= 0 -> drop_x d' = 0) /\
    stream g' = stream g /\ (pos g + 3 <= pos g')%nat.
Proof.
  intros Hd. unfold recycle', recycle.
  destruct (recycle_width_spec d g Hd) as (w & g1 & -> & Hw & Hwc & Hwh & Hs1 & Hp1).
  cbn [bind].
  assert (exists x g2,
    (if Z.max 0 (cols - w) >? 0 then randint 0 (Z.max 0 (cols - w)) g1
     else Ok (0, g1)) = Ok (x, g2) /\ 0 <= x <= cols - w /\
     (cols - w <= 0 -> x = 0) /\
     stream g2 = stream g1 /\ (pos g1 <= pos g2)%nat) as (x & g2 & -> & Hx & Hx0 & Hs2 & Hp2).
  { destruct (Z.gtb_spec (Z.max 0 (cols - w)) 0) as [Hgt|Hle].
    - destruct (randint_spec 0 (Z.max 0 (cols - w)) g1 ltac:(lia)) as (v & -> & Hv).
      eexists _, _. split; [reflexivity|]. simpl. repeat split; lia.
    - eexists _, _. split; [reflexivity|]. repeat split; lia. }
  cbn [bind].
  destruct (randint_spec 0 rows g2 Hrows) as (r & -> & Hr). cbn [bind].
  destruct (randint_spec min_tail max_tail (advance_rng g2) ltac:(lia)) as (t & -> & Ht).
  cbn [bind].
  destruct (randrange_spec file_size (advance_rng (advance_rng g2)) Hpos)
    as (ix & -> & Hix).
  cbn [bind].
  assert (exists m g6,
    (if (global_mode =? "mixed")%string
     then choice ["ascii"%string; "hex"%string]
            (advance_rng (advance_rng (advance_rng g2)))
     else Ok (global_mode, advance_rng (advance_rng (advance_rng g2)))) = Ok (m, g6) /\
    stream g6 = stream g2 /\ (pos g2 + 3 <= pos g6)%nat) as (m & g6 & -> & Hs6 & Hp6).
  { destruct (global_mode =? "mixed")%string.
    - destruct (choice_pair "ascii"%string "hex"%string
                  (advance_rng (advance_rng (advance_rng g2)))) as (v & -> & _).
      eexists _, _. split; [reflexivity|]. simpl. split; [done|lia].
    - eexists _, _. split; [reflexivity|]. simpl. split; [done|lia]. }
  cbn [bind]. rewrite release_all_calls.
  eexists _, _. split; [reflexivity|]. simpl.
  split; [constructor; simpl; auto; lia|].
  repeat split; try lia; congruence.
Qed.

(** The trimming loop drops the [k] oldest items, [k] being the excess
    over [tail], and deletes them from the canvas oldest first. *)
Lemma trim_spec tail items cv :
  0 <= tail ->
  let k := (length items - Z.to_nat tail)%nat in
  trim tail items cv =
    Ok (drop k items,
        mkCanvas (next_id cv) (calls cv ++ map Delete (take k items))).
Proof.
  intros Ht. revert cv. induction items as [|it items IH]; intros cv.
  - simpl. destruct (Z.gtb_spec (Z.of_nat 0) tail); [lia|].
    rewrite app_nil_r. by destruct cv.
  - cbn [trim]. destruct (Z.gtb_spec (Z.of_nat (length (it :: items))) tail) as [Hgt|Hle].
    + rewrite IH. simpl length in *.
      replace (S (length items) - Z.to_nat tail)%nat
        with (S (length items - Z.to_nat tail)) by lia.
      simpl. by rewrite <- app_assoc.
    + simpl length in *.
      replace (S (length items) - Z.to_nat tail)%nat with 0%nat by lia.
      simpl. rewrite app_nil_r. by destruct cv.
Qed.

(** The advance branch, computed: the head moves down one row; when the
    new row is on screen one glyph is drawn for the byte under the cursor
    and the cursor steps cyclically; then the excess items are trimmed. *)
Lemma advance_spec d items cv g :
  ok d ->
  let y := drop_y d + 1 in
  let visible := (0 <=? y) && (y <? rows) in
  exists byte,
    data !! Z.to_nat (drop_index d) = Some byte /\
    let items1 := if visible then items ++ [next_id cv] else items in
    let ix := if visible then (drop_index d + 1) mod file_size else drop_index d in
    let drawn :=
      if visible
      then [CreateText (next_id cv) (drop_x d * char_width) (y * char_height)
                       (glyph_text (drop_mode d) byte)]
      else [] in
    let k := (length items1 - Z.to_nat (drop_tail d))%nat in
    advance' d items cv g =
      Ok (mkDrop (drop_x d) y (drop_width d) (drop_tail d) ix (drop_mode d),
          drop k items1,
          mkCanvas (if visible then S (next_id cv) else next_id cv)
                   (calls cv ++ drawn ++ map Delete (take k items1)),
          g).
Proof.
  intros Hd y visible.
  destruct (py_get_in_range data (drop_index d)) as (byte & Hb & Hget).
  { destruct Hd. lia. }
  exists byte. split; [done|]. cbv zeta.
  unfold advance', advance, render. fold y. fold visible.
  assert (0 <= drop_tail d) as Ht by (destruct Hd; lia).
  destruct visible.
  - cbn [bind]. rewrite Hget. cbn [bind create_text].
    unfold py_mod. destruct (Z.eqb_spec file_size 0); [lia|]. cbn [bind].
    rewrite trim_spec by done. cbn [bind next_id calls].
    by rewrite <- app_assoc.
  - cbn [bind]. rewrite trim_spec by done. cbn [bind]. done.
Qed.

(** Either branch returns, keeps the drop well formed, bounds the item
    list by the tail, only appends to the calls of the canvas, and only
    moves the read position of the generator forward. *)
Lemma update_drop_ok d items cv g :
  ok d ->
  exists d' items' cv' g',
    update_drop' d items cv g = Ok (d', items', cv', g') /\
    ok d' /\ Z.of_nat (length items') <= drop_tail d' /\
    calls cv `prefix_of` calls cv' /\
    stream g' = stream g /\ (pos g <= pos g')%nat.
Proof.
  intros Hd. unfold update_drop', update_drop.
  destruct (drop_y d - drop_tail d >=? rows).
  - destruct (recycle_spec d items cv g Hd)
      as (d' & g' & Heq & Hd' & _ & _ & _ & Hs & Hp).
    unfold recycle' in Heq. rewrite Heq. eexists _, _, _, _.
    split; [reflexivity|]. split; [done|].
    split; [destruct Hd'; simpl; lia|].
    split; [by eexists|]. split; [done|lia].
  - destruct (advance_spec d items cv g Hd) as (byte & Hb & Heq).
    cbv zeta in Heq. unfold advance' in Heq. rewrite Heq.
    eexists _, _, _, _. split; [reflexivity|].
    assert (0 <= (drop_index d + 1) mod file_size < file_size)
      by (apply Z.mod_pos_bound; lia).
    split.
    { destruct Hd. constructor; simpl; auto.
      destruct (_ && _); lia. }
    split; [simpl; rewrite length_drop; destruct Hd; lia|].
    split; [by eexists|]. done.
Qed.

Let update_loop' :=
  update_loop cols rows min_tail max_tail file_size char_width char_height
              global_mode (Some data).

(** The loop over the drops returns, and each drop is the outcome of
    [update_drop] on that drop and its own item list, run on the canvas
    and the generator the earlier drops left behind. *)
Lemma update_loop_spec ds : forall i (all : list (list nat)) cv g,
  Forall ok ds -> (i + length ds <= length all)%nat ->
  exists ds' all' cv' g',
    update_loop' i ds all cv g = Ok (ds', all', cv', g') /\
    length ds' = length ds /\ length all' = length all /\
    (forall k, (k < i)%nat -> all' !! k = all !! k) /\
    calls cv `prefix_of` calls cv' /\
    stream g' = stream g /\ (pos g <= pos g')%nat /\
    forall k d, ds !! k = Some d ->
      exists its cvk gk d' its' cvk' gk',
        all !! (i + k)%nat = Some its /\
        update_drop' d its cvk gk = Ok (d', its', cvk', gk') /\
        ds' !! k = Some d' /\ all' !! (i + k)%nat = Some its' /\
        calls cv `prefix_of` calls cvk /\ calls cvk' `prefix_of` calls cv' /\
        stream gk = stream g /\ (pos g <= pos gk)%nat /\ (pos gk' <= pos g')%nat.
Proof.
  induction ds as [|d rest IH]; intros i all cv g Hok Hlen.
  - exists [], all, cv, g. repeat split; try done.
  - apply Forall_cons in Hok as [Hd Hrest]. simpl in Hlen.
    destruct (lookup_lt_is_Some_2 all i ltac:(lia)) as [items Hitems].
    destruct (update_drop_ok d items cv g Hd)
      as (d1 & items1 & cv1 & g1 & Hstep & Hd1 & _ & Hpre1 & Hs1 & Hp1).
    destruct (IH (S i) (<[i := items1]> all) cv1 g1 Hrest)
      as (ds' & all' & cv' & g' & Hloop & Hl1 & Hl2 & Hlow & Hpre & Hs & Hp & Hper).
    { rewrite length_insert. lia. }
    exists (d1 :: ds'), all', cv', g'.
    split.
    { unfold update_loop'. cbn [update_loop]. rewrite (py_get_nat _ _ _ Hitems).
      cbn [bind]. unfold update_drop' in Hstep. rewrite Hstep. cbn [bind].
      unfold update_loop' in Hloop. rewrite Hloop. done. }
    split; [simpl; lia|].
    split; [by rewrite Hl2, length_insert|].
    split.
    { intros k Hk. rewrite Hlow by lia. apply list_lookup_insert_ne. lia. }
    split; [by etrans|].
    split; [congruence|]. split; [lia|].
    intros [|k] d0 Hk.
    + simpl in Hk. injection Hk as <-.
      exists items, cv, g, d1, items1, cv1, g1.
      rewrite Nat.add_0_r. repeat split; try done.
      rewrite Hlow by lia. apply list_lookup_insert_eq.
      by eapply lookup_lt_Some.
    + simpl in Hk.
      destruct (Hper k d0 Hk)
        as (its & cvk & gk & d' & its' & cvk' & gk' & Ha & Hb & Hc & He & Hf & Hg & Hh & Hi & Hj).
      exists its, cvk, gk, d', its', cvk', gk'.
      rewrite list_lookup_insert_ne in Ha by lia.
      replace (i + S k)%nat with (S i + k)%nat by lia.
      repeat split; try done; try congruence; try lia.
      by etrans.
Qed.
End AnimatorFacts.

(** ** Facts about the allocator *)

Lemma ranges_ordered_disjoint ds : ranges_ordered ds -> pairwise_disjoint ds.
Proof.
  intros Hord i j d1 d2 Hne H1 H2 c [Hc1 Hc2]. unfold claims_column in *.
  destruct (Nat.lt_ge_cases i j) as [Hlt|Hge].
  - specialize (Hord i j d1 d2 Hlt H1 H2). lia.
  - assert (j < i)%nat as Hlt by lia.
    specialize (Hord j i d2 d1 Hlt H2 H1). lia.
Qed.

Lemma ranges_ordered_snoc ds d bound :
  ranges_ordered ds ->
  Forall (fun d' => drop_x d' + drop_width d' <= bound) ds ->
  bound <= drop_x d ->
  ranges_ordered (ds ++ [d]).
Proof.
  intros Hord Hall Hb i j d1 d2 Hlt H1 H2.
  assert (j < length (ds ++ [d]))%nat as Hj by (by eapply lookup_lt_Some).
  rewrite length_app in Hj. simpl in Hj.
  rewrite lookup_app_l in H1 by lia.
  destruct (decide (j < length ds)%nat) as [Hjl|Hjl].
  - rewrite lookup_app_l in H2 by lia. exact (Hord i j d1 d2 Hlt H1 H2).
  - rewrite lookup_app_r in H2 by lia.
    replace (j - length ds)%nat with 0%nat in H2 by lia.
    injection H2 as <-.
    rewrite Forall_lookup in Hall. specialize (Hall i d1 H1). simpl in Hall. lia.
Qed.

Lemma randint_inv a b g v g' :
  randint a b g = Ok (v, g') -> a <= v <= b /\ g' = advance_rng g.
Proof.
  unfold randint, next_raw, advance_rng.
  destruct (Z.ltb_spec b a) as [|Hab]; [discriminate|].
  intros [= <- <-]. split; [|done].
  pose proof (Z.mod_pos_bound (stream g (pos g)) (b - a + 1)). lia.
Qed.

Lemma randrange_inv n g v g' :
  randrange n g = Ok (v, g') -> 0 <= v < n /\ g' = advance_rng g.
Proof.
  unfold randrange, next_raw, advance_rng.
  destruct (Z.leb_spec n 0) as [|Hn]; [discriminate|].
  intros [= <- <-]. split; [|done]. apply Z.mod_pos_bound. lia.
Qed.

Section AllocatorFacts.
Variables (cols rows min_tail max_tail file_size : Z) (mode : string).

Let ok := drop_ok cols file_size min_tail max_tail mode.

Let placed := placed cols rows min_tail max_tail file_size mode.

Lemma alloc_width_spec x g :
  exists w g', alloc_width cols mode x g = Ok (w, g') /\
    (w = 1 \/ w = 2) /\
    (mode = "hex"%string -> w = 2) /\ (mode = "ascii"%string -> w = 1).
Proof.
  unfold alloc_width.
  destruct (String.eqb_spec mode "hex") as [Hx|Hx].
  - eexists _, _. split; [reflexivity|]. subst mode.
    repeat split; auto; discriminate.
  - destruct (String.eqb_spec mode "ascii") as [Ha|Ha].
    + eexists _, _. split; [reflexivity|]. repeat split; auto; done.
    + destruct (choice_pair true false g) as (c & -> & _). cbn [bind].
      eexists _, _. split; [reflexivity|].
      destruct (c && (x <? cols - 1)); repeat split; auto; done.
Qed.

Lemma new_drop_inv x w g d g' :
  new_drop rows min_tail max_tail file_size mode x w g = Ok (d, g') ->
  drop_x d = x /\ drop_width d = w /\ - rows <= drop_y d <= 0 /\
  min_tail <= drop_tail d <= max_tail /\ 0 <= drop_index d < file_size.
Proof.
  unfold new_drop.
  destruct (randint 0 rows g) as [[r g1]|] eqn:E1; [|discriminate].
  cbn [bind].
  destruct (randint min_tail max_tail g1) as [[t g2]|] eqn:E2; [|discriminate].
  cbn [bind].
  destruct (randrange file_size g2) as [[ix g3]|] eqn:E3; [|discriminate].
  cbn [bind].
  apply randint_inv in E1 as [H1 _]. apply randint_inv in E2 as [H2 _].
  apply randrange_inv in E3 as [H3 _].
  destruct (mode =? "mixed")%string.
  - destruct (choice_pair "ascii"%string "hex"%string g3) as (m & -> & _).
    cbn [bind]. intros [= <- <-]. simpl. repeat split; lia.
  - intros [= <- <-]. simpl. repeat split; lia.
Qed.

Lemma new_drop_total x w g :
  0 <= rows -> min_tail <= max_tail -> 1 <= file_size ->
  exists d g', new_drop rows min_tail max_tail file_size mode x w g = Ok (d, g').
Proof.
  intros Hr Ht Hf. unfold new_drop.
  destruct (randint_spec 0 rows g Hr) as (r & -> & _). cbn [bind].
  destruct (randint_spec min_tail max_tail (advance_rng g) Ht) as (t & -> & _).
  cbn [bind].
  destruct (randrange_spec file_size (advance_rng (advance_rng g)) Hf)
    as (ix & -> & _).
  cbn [bind].
  destruct (mode =? "mixed")%string.
  - destruct (choice_pair "ascii"%string "hex"%string
                (advance_rng (advance_rng (advance_rng g)))) as (m & -> & _).
    cbn [bind]. by eexists _, _.
  - by eexists _, _.
Qed.

Lemma mark_occupied_total occupied x w :
  0 <= x -> w = 1 \/ w = 2 -> x + w <= Z.of_nat (length occupied) ->
  exists occ', mark_occupied occupied x w = Ok occ' /\
               length occ' = length occupied.
Proof.
  intros Hx Hw Hlen. unfold mark_occupied.
  destruct Hw as [-> | ->]; simpl.
  - rewrite py_set_ok by lia. eexists. split; [reflexivity|]. apply length_insert.
  - rewrite py_set_ok by lia. cbn [bind].
    rewrite py_set_ok by (rewrite length_insert; lia).
    eexists. split; [reflexivity|]. by rewrite !length_insert.
Qed.

Lemma placed_mono b b' d : placed b d -> b <= b' -> placed b' d.
Proof.
  intros (? & ? & ? & ?) Hb.
  split; [assumption|]. split; [lia|]. split; [lia|assumption].
Qed.

Lemma placed_cols b d : placed b d -> placed cols d.
Proof.
  intros (Hd & ? & ? & ?).
  split; [assumption|]. split; [destruct Hd; lia|]. split; [lia|assumption].
Qed.

(** Whatever the sweep returns is well formed, ordered left to right,
    and comes with one empty item list per drop. *)
Lemma create_loop_inv fuel : forall x occupied ds its g ds' its' g',
  create_loop cols rows min_tail max_tail file_size mode
              fuel x occupied ds its g = Ok (ds', its', g') ->
  0 <= x ->
  Forall (placed x) ds -> ranges_ordered ds ->
  length its = length ds -> Forall (fun l => l = []) its ->
  Forall (placed cols) ds' /\ ranges_ordered ds' /\
  length its' = length ds' /\ Forall (fun l => l = []) its'.
Proof.
  induction fuel as [|fuel IH]; intros x occupied ds its g ds' its' g';
    cbn [create_loop]; destruct (Z.ltb_spec x cols) as [Hlt|Hge];
    intros Hrun Hx Hpl Hord Hlen Hnil.
  - discriminate.
  - injection Hrun as <- <- <-. repeat split; try done.
    eapply Forall_impl; [exact Hpl|]. intros d Hd. by eapply placed_cols.
  - assert (Forall (placed (x + 1)) ds) as Hpl1.
    { eapply Forall_impl; [exact Hpl|]. intros d Hd.
      eapply placed_mono; [exact Hd|lia]. }
    unfold random_lt_half, next_raw in Hrun.
    destruct (Z.even (stream g (pos g))); [|by eapply IH; eauto; lia].
    destruct (alloc_width_spec x (advance_rng g)) as (w & g2 & Hw & Hw12 & Hwh & Hwa).
    unfold advance_rng in Hw. rewrite Hw in Hrun. cbn [bind] in Hrun.
    destruct ((w =? 2) && (x >=? cols - 1)) eqn:Hfit;
      [by eapply IH; eauto; lia|].
    destruct (any (py_slice occupied x (x + w)));
      [by eapply IH; eauto; lia|].
    destruct (mark_occupied occupied x w) as [occ'|] eqn:Hocc; [|discriminate].
    cbn [bind] in Hrun.
    destruct (new_drop rows min_tail max_tail file_size mode x w g2)
      as [[d g3]|] eqn:Hnew; [|discriminate].
    cbn [bind] in Hrun.
    apply new_drop_inv in Hnew as (Hdx & Hdw & Hdy & Hdt & Hdi).
    assert (x + w <= cols) as Hright.
    { apply andb_false_iff in Hfit as [Hf|Hf]; [|lia]. lia. }
    eapply IH; [exact Hrun|lia| | | |].
    + apply Forall_app. split.
      * eapply Forall_impl; [exact Hpl|]. intros d0 Hd0.
        eapply placed_mono; [exact Hd0|]. destruct Hw12; lia.
      * apply Forall_singleton. rewrite <- Hdw in Hw12, Hwh, Hwa.
        split; [constructor; auto; lia|]. split; [lia|]. split; [lia|auto].
    + apply (ranges_ordered_snoc _ _ x); [exact Hord| |lia].
      eapply Forall_impl; [exact Hpl|]. by intros d0 (? & ? & ?).
    + rewrite !length_app. simpl. lia.
    + apply Forall_app. split; [done|]. by apply Forall_singleton.
  - injection Hrun as <- <- <-. repeat split; try done.
    eapply Forall_impl; [exact Hpl|]. intros d Hd. by eapply placed_cols.
Qed.

(** With a non-empty file, an ordered tail range and a budget of one
    step per remaining column, the sweep returns. *)
Lemma create_loop_total fuel : forall x occupied ds its g,
  0 <= rows -> min_tail <= max_tail -> 1 <= file_size ->
  (Z.to_nat (cols - x) <= fuel)%nat -> 0 <= x ->
  Z.of_nat (length occupied) = cols ->
  exists res,
    create_loop cols rows min_tail max_tail file_size mode
                fuel x occupied ds its g = Ok res.
Proof.
  induction fuel as [|fuel IH]; intros x occupied ds its g Hr Ht Hf Hfuel Hx Hocc;
    cbn [create_loop]; destruct (Z.ltb_spec x cols) as [Hlt|Hge];
    try (by eexists); try lia.
  unfold random_lt_half, next_raw.
  destruct (Z.even (stream g (pos g))); [|apply IH; auto; lia].
  destruct (alloc_width_spec x (mkRng (stream g) (S (pos g))))
    as (w & g2 & -> & Hw12 & _ & _).
  cbn [bind].
  destruct ((w =? 2) && (x >=? cols - 1)) eqn:Hfit; [apply IH; auto; lia|].
  destruct (any (py_slice occupied x (x + w))); [apply IH; auto; lia|].
  assert (x + w <= cols) as Hright.
  { apply andb_false_iff in Hfit as [Hfit|Hfit]; lia. }
  destruct (mark_occupied_total occupied x w Hx Hw12 ltac:(lia)) as (occ' & -> & Hlen).
  cbn [bind].
  destruct (new_drop_total x w g2 Hr Ht Hf) as (d & g3 & ->). cbn [bind].
  apply IH; auto; try lia.
Qed.
End AllocatorFacts.

(** ** Facts about [create_drops] *)

Lemma create_drops_degenerate st :
  cols st < 1 \/ rows st < 1 -> create_drops st = Ok st.
Proof.
  intros H. unfold create_drops.
  destruct (Z.ltb_spec (cols st) 1), (Z.ltb_spec (rows st) 1); simpl; try done; lia.
Qed.

(** On a grid with at least one column and one row the allocator replaces
    the drops by the result of the sweep. *)
Lemma create_drops_inv st st' :
  create_drops st = Ok st' -> 1 <= cols st -> 1 <= rows st ->
  exists ds its g,
    st' = set_alloc st ds its g /\
    Forall (st_placed st) ds /\ ranges_ordered ds /\
    length its = length ds /\ Forall (fun l => l = []) its.
Proof.
  intros Hrun Hc Hr. unfold create_drops in Hrun.
  destruct (Z.ltb_spec (cols st) 1); [lia|].
  destruct (Z.ltb_spec (rows st) 1); [lia|]. simpl in Hrun.
  destruct (create_loop _ _ _ _ _ _ _ _ _ _ _ _) as [[[ds its] g]|] eqn:Hloop;
    [|discriminate].
  cbn [bind] in Hrun. injection Hrun as <-.
  exists ds, its, g. split; [done|].
  eapply create_loop_inv; [exact Hloop|lia| | | |]; try done.
Qed.

Lemma create_drops_total st :
  config_ok st -> exists st', create_drops st = Ok st'.
Proof.
  intros [_ Hsz Ht]. unfold create_drops.
  destruct (Z.ltb_spec (cols st) 1); [by eexists|].
  destruct (Z.ltb_spec (rows st) 1); [by eexists|]. simpl.
  destruct (create_loop_total (cols st) (rows st) (min_tail st) (max_tail st)
              (file_size st) (mode_var st) (Z.to_nat (cols st)) 0
              (repeat false (Z.to_nat (cols st))) [] [] (random st))
    as ([[ds its] g] & ->); try lia.
  - rewrite repeat_length. lia.
  - cbn [bind]. by eexists.
Qed.

(** ** Facts about one frame *)

(** A frame on a running, well-formed state returns; the new drops and
    item lists are, index by index, what [update_drop] makes of the old. *)
Lemma update_rain_frame st :
  wf st -> running st = true ->
  exists ds' all' cv' g',
    update_rain st = Ok (set_frame st ds' all' cv' g') /\
    length ds' = length (drops st) /\ length all' = length (drop_items st) /\
    calls (canvas st) `prefix_of` calls cv' /\
    stream g' = stream (random st) /\ (pos (random st) <= pos g')%nat /\
    forall k d, drops st !! k = Some d ->
      exists its cvk gk d' its' cvk' gk',
        drop_items st !! k = Some its /\
        st_update_drop st d its cvk gk = Ok (d', its', cvk', gk') /\
        ds' !! k = Some d' /\ all' !! k = Some its' /\
        calls (canvas st) `prefix_of` calls cvk /\
        calls cvk' `prefix_of` calls cv' /\
        stream gk = stream (random st) /\
        (pos (random st) <= pos gk)%nat /\ (pos gk' <= pos g')%nat.
Proof.
  intros [[(data & Hdata & Hsize) Hpos Htails] Hgrid Hitems Hdrops] Hrun.
  unfold update_rain. rewrite Hrun. cbn [negb].
  destruct Hgrid as [Hnil|Hrows].
  - rewrite Hnil. cbn [update_loop bind].
    exists [], (drop_items st), (canvas st), (random st).
    repeat split; try done.
  - destruct (update_loop_spec (cols st) (rows st) (min_tail st) (max_tail st)
                (file_size st) (char_width st) (char_height st) (mode_var st)
                data Hsize Hpos Htails Hrows (drops st) 0 (drop_items st)
                (canvas st) (random st) Hdrops ltac:(simpl; lia))
      as (ds' & all' & cv' & g' & Hloop & Hl1 & Hl2 & _ & Hpre & Hs & Hp & Hper).
    rewrite Hdata, Hloop. cbn [bind].
    exists ds', all', cv', g'. repeat split; try done.
    intros k d Hk. unfold st_update_drop. rewrite Hdata. by apply Hper.
Qed.

Lemma st_update_drop_ok st d items cv g :
  wf st -> st_drop_ok st d -> 0 <= rows st ->
  exists d' items' cv' g',
    st_update_drop st d items cv g = Ok (d', items', cv', g') /\
    st_drop_ok st d' /\ Z.of_nat (length items') <= drop_tail d'.
Proof.
  intros [[(data & Hdata & Hsize) Hpos Htails] _ _ _] Hd Hrows.
  destruct (update_drop_ok (cols st) (rows st) (min_tail st) (max_tail st)
              (file_size st) (char_width st) (char_height st) (mode_var st)
              data Hsize Hpos Htails Hrows d items cv g Hd)
    as (d' & items' & cv' & g' & Heq & Hok & Hlen & _).
  exists d', items', cv', g'. unfold st_update_drop. rewrite Hdata. done.
Qed.

Lemma wf_rows_of_drop st k d : wf st -> drops st !! k = Some d -> 0 <= rows st.
Proof.
  intros [_ [Hnil|Hr] _ _] Hk; [|done]. rewrite Hnil in Hk. done.
Qed.

(** After a frame every drop of the new state is the image of the drop at
    the same index, so what [update_drop] guarantees holds for all of them. *)
Lemma update_rain_wf st :
  wf st ->
  exists st',
    update_rain st = Ok st' /\ wf st' /\
    (running st = true ->
     forall k d' its', drops st' !! k = Some d' -> drop_items st' !! k = Some its' ->
       Z.of_nat (length its') <= drop_tail d').
Proof.
  intros Hwf. destruct (running st) eqn:Hrun.
  - destruct (update_rain_frame st Hwf Hrun)
      as (ds' & all' & cv' & g' & Heq & Hl1 & Hl2 & _ & _ & _ & Hper).
    exists (set_frame st ds' all' cv' g'). split; [done|].
    assert (forall k d', ds' !! k = Some d' ->
              st_drop_ok st d' /\ 0 <= rows st /\
              forall its', all' !! k = Some its' ->
                Z.of_nat (length its') <= drop_tail d') as Hall.
    { intros k d' Hk.
      destruct (lookup_lt_is_Some_2 (drops st) k) as [d Hd].
      { rewrite <- Hl1. by eapply lookup_lt_Some. }
      destruct (Hper k d Hd)
        as (its & cvk & gk & d1 & its1 & cvk' & gk' & Hi & Hstep & Hd1 & Hi1 & _).
      pose proof (wf_rows_of_drop st k d Hwf Hd) as Hrows.
      assert (st_drop_ok st d) as Hok.
      { destruct Hwf as [_ _ _ Hds]. rewrite Forall_lookup in Hds. by eapply Hds. }
      destruct (st_update_drop_ok st d its cvk gk Hwf Hok Hrows)
        as (d2 & its2 & cv2 & g2 & Hstep2 & Hok2 & Hlen2).
      rewrite Hstep in Hstep2. injection Hstep2 as <- <- <- <-.
      rewrite Hk in Hd1. injection Hd1 as <-.
      split; [done|]. split; [done|].
      intros its' Hits'. rewrite Hi1 in Hits'. by injection Hits' as <-. }
    split.
    + destruct Hwf as [[Hd Hp Ht] Hgrid Hit _].
      split; [split; done| | |]; simpl.
      * destruct ds' as [|d0 ds0]; [by left|right].
        by destruct (Hall 0%nat d0 eq_refl) as (_ & ? & _).
      * lia.
      * apply Forall_lookup. intros k d' Hk. by destruct (Hall k d' Hk).
    + intros _ k d' its' Hk Hi. simpl in Hk, Hi.
      destruct (Hall k d' Hk) as (_ & _ & Hb). by apply Hb.
  - exists st. unfold update_rain. rewrite Hrun. simpl.
    split; [done|]. split; [done|]. intros; discriminate.
Qed.

Lemma st_drop_ok_lookup st k d :
  wf st -> drops st !! k = Some d -> st_drop_ok st d.
Proof.
  intros [_ _ _ Hds] Hk. rewrite Forall_lookup in Hds. by eapply Hds.
Qed.

(** The iteration of a drop whose tail has left the grid. *)
Lemma st_update_drop_recycle st d its cv g :
  wf st -> st_drop_ok st d -> 0 <= rows st ->
  rows st <= drop_y d - drop_tail d ->
  exists d' g',
    st_update_drop st d its cv g =
      Ok (d', [], mkCanvas (next_id cv) (calls cv ++ map Delete its), g') /\
    st_drop_ok st d' /\ - rows st <= drop_y d' <= 0 /\
    0 <= drop_x d' <= cols st - drop_width d' /\
    (cols st - drop_width d' <= 0 -> drop_x d' = 0) /\
    stream g' = stream g /\ (pos g + 3 <= pos g')%nat.
Proof.
  intros [[(data & Hdata & Hsize) Hpos Htails] _ _ _] Hd Hrows Hdue.
  destruct (recycle_spec (cols st) (rows st) (min_tail st) (max_tail st)
              (file_size st) (char_width st) (char_height st) (mode_var st)
              data Hpos Htails Hrows d its cv g Hd) as (d' & g' & Heq & Hrest).
  exists d', g'. split; [|exact Hrest].
  unfold st_update_drop, update_drop.
  destruct (Z.geb_spec (drop_y d - drop_tail d) (rows st)); [done|lia].
Qed.

(** The iteration of any other drop. *)
Lemma st_update_drop_advance st d its cv g :
  wf st -> st_drop_ok st d -> drop_y d - drop_tail d < rows st ->
  let y := drop_y d + 1 in
  let visible := (0 <=? y) && (y <? rows st) in
  exists data byte,
    file_data st = Some data /\
    data !! Z.to_nat (drop_index d) = Some byte /\
    let items1 := if visible then its ++ [next_id cv] else its in
    let ix :=
      if visible then (drop_index d + 1) mod file_size st else drop_index d in
    let drawn :=
      if visible
      then [CreateText (next_id cv) (drop_x d * char_width st)
                       (y * char_height st) (glyph_text (drop_mode d) byte)]
      else [] in
    let k := (length items1 - Z.to_nat (drop_tail d))%nat in
    st_update_drop st d its cv g =
      Ok (mkDrop (drop_x d) y (drop_width d) (drop_tail d) ix (drop_mode d),
          drop k items1,
          mkCanvas (if visible then S (next_id cv) else next_id cv)
                   (calls cv ++ drawn ++ map Delete (take k items1)),
          g).
Proof.
  intros [[(data & Hdata & Hsize) Hpos Htails] _ _ _] Hd Hnot y visible.
  destruct (advance_spec (cols st) (rows st) (min_tail st) (max_tail st)
              (file_size st) (char_width st) (char_height st) (mode_var st)
              data Hsize Hpos Htails d its cv g Hd) as (byte & Hb & Heq).
  exists data, byte. split; [done|]. split; [done|]. cbv zeta in *.
  unfold st_update_drop, update_drop. rewrite Hdata.
  destruct (Z.geb_spec (drop_y d - drop_tail d) (rows st)); [lia|done].
Qed.

Lemma update_rain_fields st st' :
  update_rain st = Ok st' ->
  file_data st' = file_data st /\ file_size st' = file_size st /\
  min_tail st' = min_tail st /\ max_tail st' = max_tail st /\
  running st' = running st /\ mode_var st' = mode_var st /\
  char_width st' = char_width st /\ char_height st' = char_height st /\
  cols st' = cols st /\ rows st' = rows st.
Proof.
  unfold update_rain. destruct (negb (running st)).
  - intros [= <-]. repeat split.
  - destruct (update_loop _ _ _ _ _ _ _ _ _ _ _ _ _ _) as [[[[ds its] cv] g]|];
      [|discriminate].
    cbn [bind]. intros [= <-]. repeat split.
Qed.

Lemma tick_iteration st st' k d its :
  wf st -> running st = true -> update_rain st = Ok st' ->
  drops st !! k = Some d -> drop_items st !! k = Some its ->
  exists d' its' emitted draws, iteration st st' k d its d' its' emitted draws.
Proof.
  intros Hwf Hrun Htick Hd Hits.
  destruct (update_rain_frame st Hwf Hrun)
    as (ds' & all' & cv' & g' & Heq & _ & _ & _ & _ & _ & Hper).
  rewrite Htick in Heq. injection Heq as ->.
  destruct (Hper k d Hd)
    as (its0 & cvk & gk & d' & its' & cvk' & gk' & Hi & Hstep & Hd' & Hi' & Hp1 & Hp2 & Hs & _).
  rewrite Hits in Hi. injection Hi as <-.
  pose proof (wf_rows_of_drop st k d Hwf Hd) as Hrows.
  pose proof (st_drop_ok_lookup st k d Hwf Hd) as Hok.
  destruct Hwf as [[(data & Hdata & Hsize) Hpos Htails] Hg Hl Hds].
  destruct (update_drop_ok (cols st) (rows st) (min_tail st) (max_tail st)
              (file_size st) (char_width st) (char_height st) (mode_var st)
              data Hsize Hpos Htails Hrows d its cvk gk Hok)
    as (d2 & its2 & cv2 & g2 & Heq2 & _ & _ & [emitted Hem] & _).
  unfold st_update_drop in Hstep. rewrite Hdata, Heq2 in Hstep.
  injection Hstep as <- <- <- <-.
  exists d2, its2, emitted, (pos g2 - pos gk)%nat, cvk, gk, cv2, g2.
  unfold st_update_drop. rewrite Hdata. repeat split; done.
Qed.

(** C1. In every frame and for every drop, the drop is recycled in that
    frame exactly when [y - tail >= rows] held when the frame began; a
    recycled drop has all its canvas items deleted and its item list
    emptied, its head is not moved down and nothing is drawn for it. *)
Theorem recycle_iff_tail_off_grid st st' k d its :
  wf st -> running st = true -> update_rain st = Ok st' ->
  drops st !! k = Some d -> drop_items st !! k = Some its ->
  exists d' its' emitted draws,
    iteration st st' k d its d' its' emitted draws /\
    (recycled d its d' its' emitted draws <-> rows st <= drop_y d - drop_tail d) /\
    (recycled d its d' its' emitted draws ->
     its' = [] /\ emitted = map Delete its /\
     drop_y d' <> drop_y d + 1 /\
     forall id x_px y_px text, CreateText id x_px y_px text ∉ emitted) /\
    (~ recycled d its d' its' emitted draws -> advanced d d' draws).
Proof.
  intros Hwf Hrun Htick Hd Hits.
  destruct (tick_iteration st st' k d its Hwf Hrun Htick Hd Hits)
    as (d' & its' & emitted & draws & Hiter).
  exists d', its', emitted, draws. split; [exact Hiter|].
  destruct Hiter as (cvk & gk & cvk' & gk' & Hstep & _ & _ & Hem & _ & _ & _ & Hdraws).
  pose proof (wf_rows_of_drop st k d Hwf Hd) as Hrows.
  pose proof (st_drop_ok_lookup st k d Hwf Hd) as Hok.
  assert (0 <= drop_tail d) as Htail.
  { destruct Hok, Hwf as [[_ _ ?] _ _ _]. lia. }
  destruct (Z.le_gt_cases (rows st) (drop_y d - drop_tail d)) as [Hdue|Hnot].
  - destruct (st_update_drop_recycle st d its cvk gk Hwf Hok Hrows Hdue)
      as (d2 & g2 & Heq & _ & Hy & _ & _ & _ & Hp).
    rewrite Hstep in Heq. injection Heq as -> -> -> ->.
    simpl in Hem. apply app_inv_head in Hem.
    assert (recycled d its d2 [] emitted draws) as Hrec.
    { repeat split; try done; lia. }
    split; [done|]. split; [|done].
    intros _. repeat split; try done; try lia.
    intros id x_px y_px text Hin. rewrite <- Hem in Hin.
    apply list_elem_of_fmap in Hin as (? & ? & ?). discriminate.
  - destruct (st_update_drop_advance st d its cvk gk Hwf Hok Hnot)
      as (data & byte & _ & _ & Heq).
    cbv zeta in Heq. rewrite Hstep in Heq. injection Heq as -> _ _ ->.
    assert (~ recycled d its
              (mkDrop (drop_x d) (drop_y d + 1) (drop_width d) (drop_tail d)
                 (if (0 <=? drop_y d + 1) && (drop_y d + 1 <? rows st)
                  then (drop_index d + 1) mod file_size st else drop_index d)
                 (drop_mode d)) its' emitted draws) as Hnrec.
    { intros (_ & _ & Hdr & _). lia. }
    split; [split; [done|lia]|]. split; [done|].
    intros _. repeat split; simpl; try done. lia.
Qed.

(** C4. After every frame the item list of every drop is at most as long
    as the drop's tail; for a drop that was not recycled the new list is
    the old one, with the new item appended when one was drawn, minus its
    [excess] oldest entries, which are deleted from the canvas front
    first, [excess] being exactly what the list had above the tail. *)
Theorem tail_bound_after_tick st :
  wf st -> running st = true ->
  exists st',
    update_rain st = Ok st' /\
    (forall k d' its',
       drops st' !! k = Some d' -> drop_items st' !! k = Some its' ->
       Z.of_nat (length its') <= drop_tail d') /\
    (forall k d its,
       drops st !! k = Some d -> drop_items st !! k = Some its ->
       drop_y d - drop_tail d < rows st ->
       exists d' its' emitted draws grown drawn,
         iteration st st' k d its d' its' emitted draws /\
         (grown = its /\ drawn = [] \/
          exists id x_px y_px text,
            grown = its ++ [id] /\ drawn = [CreateText id x_px y_px text]) /\
         let excess := (length grown - Z.to_nat (drop_tail d'))%nat in
         its' = drop excess grown /\
         emitted = drawn ++ map Delete (take excess grown) /\
         length its' = Nat.min (length grown) (Z.to_nat (drop_tail d'))).
Proof.
  intros Hwf Hrun.
  destruct (update_rain_wf st Hwf) as (st' & Htick & _ & Hbound).
  exists st'. split; [done|]. split; [by apply Hbound|].
  intros k d its Hd Hits Hnot.
  destruct (tick_iteration st st' k d its Hwf Hrun Htick Hd Hits)
    as (d' & its' & emitted & draws & Hiter).
  pose proof (st_drop_ok_lookup st k d Hwf Hd) as Hok.
  pose proof Hiter as (cvk & gk & cvk' & gk' & Hstep & _ & _ & Hem & _).
  destruct (st_update_drop_advance st d its cvk gk Hwf Hok Hnot)
    as (data & byte & _ & _ & Heq).
  cbv zeta in Heq. rewrite Hstep in Heq. injection Heq as -> -> -> _.
  simpl in Hem. apply app_inv_head in Hem. subst emitted.
  destruct ((0 <=? drop_y d + 1) && (drop_y d + 1 <? rows st)).
  - eexists _, _, _, draws, (its ++ [next_id cvk]), _.
    split; [exact Hiter|]. split; [right; by eexists _, _, _, _|].
    simpl. repeat split. rewrite length_drop. lia.
  - eexists _, _, _, draws, its, _.
    split; [exact Hiter|]. split; [by left|].
    simpl. repeat split. rewrite length_drop. lia.
Qed.

(** C2. Whatever the allocator returns on a grid with at least one column
    and one row, or from an empty drop list, no column lies in the ranges
    [x, x + width) of two different drops; and with a loaded file and an
    ordered tail range it does return. *)
Theorem create_drops_disjoint st :
  (config_ok st -> exists st', create_drops st = Ok st') /\
  forall st', create_drops st = Ok st' ->
    drops st = [] \/ (1 <= cols st /\ 1 <= rows st) ->
    pairwise_disjoint (drops st').
Proof.
  split; [apply create_drops_total|].
  intros st' Hrun Hpre.
  destruct (Z.lt_ge_cases (cols st) 1) as [Hc|Hc];
    [|destruct (Z.lt_ge_cases (rows st) 1) as [Hr|Hr]].
  - rewrite create_drops_degenerate in Hrun by auto. injection Hrun as <-.
    destruct Hpre as [-> |?]; [|lia]. intros i j d1 d2 _ Hi. done.
  - rewrite create_drops_degenerate in Hrun by auto. injection Hrun as <-.
    destruct Hpre as [-> |?]; [|lia]. intros i j d1 d2 _ Hi. done.
  - destruct (create_drops_inv st st' Hrun Hc Hr)
      as (ds & its & g & -> & _ & Hord & _).
    simpl. by apply ranges_ordered_disjoint.
Qed.

(** C3. The text drawn for a byte: in ASCII mode the character of the byte
    when it is in [string.printable] and is neither vertical tab nor form
    feed, that is for the codes 32..126, 9, 10 and 13, and a full stop
    otherwise, so 0x00 gives "." and 0x41 gives "A"; in hex mode the two
    upper-case hexadecimal digits of the byte, so 0x0A gives "0A" and 0xFF
    gives "FF". A head that enters a row of the grid sends exactly that
    text to the canvas; a head outside the grid sends nothing. *)
Theorem glyph_text_by_mode :
  (forall b,
     glyph_text "ascii" b =
     if kept_code (Byte.to_N b) then String (chr b) EmptyString else "."%string) /\
  (forall b,
     kept_code (Byte.to_N b) =
     char_in (chr b) printable && negb (char_in (chr b) vt_ff)) /\
  glyph_text "ascii" x00 = "."%string /\
  glyph_text "ascii" x41 = "A"%string /\
  (forall b,
     glyph_text "hex" b =
       String (hex_digit (Byte.to_N b / 16))
              (String (hex_digit (Byte.to_N b mod 16)) EmptyString) /\
     parse_hex2 (glyph_text "hex" b) = Some (Byte.to_N b)) /\
  glyph_text "hex" x0a = "0A"%string /\
  glyph_text "hex" xff = "FF"%string /\
  (forall rows file_size char_width char_height data d y its cv byte,
     0 <= y < rows -> file_size <> 0 -> 0 <= drop_index d ->
     data !! Z.to_nat (drop_index d) = Some byte ->
     render rows file_size char_width char_height (Some data) d y its cv =
       Ok ((drop_index d + 1) mod file_size, its ++ [next_id cv],
           mkCanvas (S (next_id cv))
             (calls cv ++ [CreateText (next_id cv) (drop_x d * char_width)
                             (y * char_height)
                             (glyph_text (drop_mode d) byte)]))) /\
  (forall rows file_size char_width char_height data d y its cv,
     ~ 0 <= y < rows ->
     render rows file_size char_width char_height data d y its cv =
       Ok (drop_index d, its, cv)).
Proof.
  split; [apply glyph_ascii_kept|].
  split; [intros b; destruct b; reflexivity|].
  split; [reflexivity|]. split; [reflexivity|].
  split; [intros b; split; [reflexivity|apply glyph_hex_parse]|].
  split; [reflexivity|]. split; [reflexivity|].
  split.
  - intros rows file_size char_width char_height data d y its cv byte Hy Hfs Hix Hb.
    unfold render.
    destruct (Z.leb_spec 0 y); [|lia]. destruct (Z.ltb_spec y rows); [|lia].
    cbn [andb bind].
    destruct (py_get_in_range data (drop_index d)) as (b' & Hb' & ->).
    { split; [done|]. apply lookup_lt_Some in Hb. lia. }
    rewrite Hb in Hb'. injection Hb' as <-. cbn [bind create_text].
    unfold py_mod. destruct (Z.eqb_spec file_size 0); done.
  - intros rows file_size char_width char_height data d y its cv Hy.
    unfold render.
    destruct (Z.leb_spec 0 y), (Z.ltb_spec y rows); try done; lia.
Qed.

(** C10. The ASCII test is membership in [string.printable] without
    vertical tab and form feed: space, tab, newline and carriage return
    are drawn as themselves, vertical tab and form feed as a full stop,
    and so is every byte from 0x80 up. *)
Theorem ascii_whitespace_and_high_bytes :
  (forall b,
     glyph_text "ascii" b =
     String (if char_in (chr b) printable && negb (char_in (chr b) vt_ff)
             then chr b else "."%char) EmptyString) /\
  String.length printable = 100%nat /\
  glyph_text "ascii" x20 = String (ascii_of_nat 32) EmptyString /\
  glyph_text "ascii" x09 = String (ascii_of_nat 9) EmptyString /\
  glyph_text "ascii" x0a = String (ascii_of_nat 10) EmptyString /\
  glyph_text "ascii" x0d = String (ascii_of_nat 13) EmptyString /\
  glyph_text "ascii" x0b = "."%string /\
  glyph_text "ascii" x0c = "."%string /\
  (forall b, (128 <= Byte.to_N b)%N -> glyph_text "ascii" b = "."%string).
Proof.
  repeat (split; [reflexivity|]).
  intros b Hb. rewrite glyph_ascii_kept.
  destruct b; try reflexivity; exfalso; revert Hb; vm_compute; intros H; by apply H.
Qed.

(** C9. With fewer than one column or one row the allocator returns at
    once and allocates nothing, so a reset ends with no drops and no item
    lists, having sent the canvas only its clearing call and drawn no
    random value; and a frame over an empty drop list returns, leaves the
    drops, the item lists, the canvas and the generator as they were. *)
Theorem degenerate_grid_no_drops :
  (forall st, cols st < 1 \/ rows st < 1 -> create_drops st = Ok st) /\
  (forall st w h,
     char_width st <> 0 -> char_height st <> 0 ->
     Z.max 1 w / char_width st < 1 \/ Z.max 1 h / char_height st < 1 ->
     exists st',
       reset_rain w h st = Ok st' /\ drops st' = [] /\ drop_items st' = [] /\
       calls (canvas st') = calls (canvas st) ++ [DeleteAll] /\
       random st' = random st) /\
  (forall st, drops st = [] ->
     exists st',
       update_rain st = Ok st' /\ drops st' = [] /\
       drop_items st' = drop_items st /\ canvas st' = canvas st /\
       random st' = random st).
Proof.
  split; [apply create_drops_degenerate|]. split.
  - intros st w h Hcw Hch Hdeg. unfold reset_rain.
    destruct (file_data (clear_rain st)) eqn:Hfd.
    + unfold init_canvas_dimensions, py_floordiv.
      destruct (Z.eqb_spec (char_width (clear_rain st)) 0); [done|].
      destruct (Z.eqb_spec (char_height (clear_rain st)) 0); [done|].
      cbn [bind]. simpl file_data. simpl in Hfd. rewrite Hfd.
      rewrite create_drops_degenerate by (simpl; lia). cbn [bind].
      rewrite create_drops_degenerate by (simpl; lia). cbn [bind].
      eexists. split; [reflexivity|]. by simpl.
    + eexists. split; [reflexivity|]. by simpl.
  - intros st Hnil. unfold update_rain. destruct (negb (running st)).
    + exists st. by repeat split.
    + rewrite Hnil. cbn [update_loop bind]. eexists. split; [reflexivity|]. by simpl.
Qed.

(** ** The invariant of the reachable states *)

Lemma config_ok_set_alloc st ds its g :
  config_ok st -> config_ok (set_alloc st ds its g).
Proof. intros [? ? ?]. by split. Qed.

Lemma placed_drop_ok st d : st_placed st d -> st_drop_ok st d.
Proof. by intros [? _]. Qed.

(** The allocator turns a cleared or well-formed state with a loaded file
    into a well-formed one. *)
Lemma create_drops_wf st st' :
  config_ok st ->
  (drops st = [] /\ drop_items st = []) \/ wf st ->
  create_drops st = Ok st' -> wf st'.
Proof.
  intros Hcfg Hpre Hrun.
  destruct (Z.lt_ge_cases (cols st) 1) as [Hc|Hc];
    [|destruct (Z.lt_ge_cases (rows st) 1) as [Hr|Hr]].
  1,2: rewrite create_drops_degenerate in Hrun by auto; injection Hrun as <-;
       destruct Hpre as [[Hd Hi]|Hwf]; [|done];
       split; [done|by left|by rewrite Hd, Hi|by rewrite Hd].
  destruct (create_drops_inv st st' Hrun Hc Hr)
    as (ds & its & g & -> & Hpl & _ & Hlen & _).
  split; simpl.
  - by apply config_ok_set_alloc.
  - right. lia.
  - done.
  - eapply Forall_impl; [exact Hpl|]. intros d Hd. by apply placed_drop_ok.
Qed.

Lemma reset_rain_wf st w h st' :
  config_ok st -> reset_rain w h st = Ok st' -> wf st'.
Proof.
  intros Hcfg Hrun. unfold reset_rain in Hrun.
  assert (config_ok (clear_rain st)) as Hc1 by (destruct Hcfg; by split).
  destruct (file_data (clear_rain st)) as [data|] eqn:Hfd.
  2: { destruct Hc1 as [(? & Hd & _) _ _]. congruence. }
  unfold init_canvas_dimensions in Hrun.
  destruct (py_floordiv _ (char_width _)) as [c|]; [|discriminate].
  cbn [bind] in Hrun.
  destruct (py_floordiv _ (char_height _)) as [r|]; [|discriminate].
  cbn [bind] in Hrun.
  set (st1 := set_dimensions (clear_rain st) c r) in *.
  assert (config_ok st1) as Hc2 by (destruct Hc1; by split).
  replace (file_data st1) with (Some data) in Hrun by done.
  destruct (create_drops st1) as [st2|] eqn:H1; [|discriminate].
  cbn [bind] in Hrun.
  assert (wf st2) as Hwf2.
  { eapply create_drops_wf; [exact Hc2| |exact H1]. by left. }
  destruct (create_drops st2) as [st3|] eqn:H2; [|discriminate].
  cbn [bind] in Hrun.
  assert (wf st3) as Hwf3.
  { eapply create_drops_wf; [by destruct Hwf2|by right|exact H2]. }
  assert (wf (set_running st3 true)) as Hwf4.
  { destruct Hwf3 as [[? ? ?] ? ? ?]. split; [by split|done..]. }
  destruct (update_rain_wf _ Hwf4) as (st4 & Htick & Hwf & _).
  congruence.
Qed.

Lemma reachable_inv st : reachable st -> inv st.
Proof.
  induction 1 as [st Hs|st sel w h st' _ IH Hop|st m w h st' _ IH Hop
                 |st st' _ IH Htick].
  - by left.
  - assert (0 <= min_tail st <= max_tail st) as Ht.
    { destruct IH as [(_ & _ & _ & ?)|[[_ _ ?] _ _ _]]; done. }
    destruct sel as [| |[|b data]]; simpl in Hop; try (by injection Hop as <-).
    right. eapply reset_rain_wf; [|exact Hop].
    split; simpl; [by eexists|lia|done].
  - unfold select_mode in Hop. destruct IH as [(Hf & Hd & Hi & Ht)|Hwf].
    + unfold reset_rain in Hop. simpl in Hop. rewrite Hf in Hop.
      injection Hop as <-. left. repeat split; simpl; try done; lia.
    + right. eapply reset_rain_wf; [|exact Hop].
      destruct Hwf as [[? ? ?] _ _ _]. by split.
  - destruct IH as [(Hf & Hd & Hi & Ht)|Hwf].
    + left. unfold update_rain in Htick. destruct (negb (running st)).
      * injection Htick as <-. repeat split; simpl; try done; lia.
      * rewrite Hd in Htick. cbn [update_loop bind] in Htick.
        injection Htick as <-. repeat split; simpl; try done; lia.
    + right. destruct (update_rain_wf st Hwf) as (st2 & Heq & Hwf2 & _).
      congruence.
Qed.

(** Frames never raise on the states the application goes through. *)
Lemma reachable_tick_returns st :
  reachable st -> exists st', update_rain st = Ok st'.
Proof.
  intros Hr. destruct (reachable_inv st Hr) as [(Hf & Hd & Hi & Ht)|Hwf].
  - unfold update_rain. destruct (negb (running st)); [by eexists|].
    rewrite Hd. cbn [update_loop bind]. by eexists.
  - destruct (update_rain_wf st Hwf) as (st' & Heq & _). by eexists.
Qed.

Lemma reachable_drop_ok st d :
  reachable st -> d ∈ drops st -> st_drop_ok st d.
Proof.
  intros Hr Hin. destruct (reachable_inv st Hr) as [(_ & Hd & _)|Hwf].
  - rewrite Hd in Hin. by apply not_elem_of_nil in Hin.
  - destruct Hwf as [_ _ _ Hds]. rewrite Forall_forall in Hds. by apply Hds.
Qed.

(** With a loaded file and non-zero character sizes a reset returns. *)
Lemma reset_rain_total st w h :
  config_ok st -> char_width st <> 0 -> char_height st <> 0 ->
  exists st', reset_rain w h st = Ok st'.
Proof.
  intros Hcfg Hcw Hch. unfold reset_rain.
  assert (config_ok (clear_rain st)) as Hc1 by (destruct Hcfg; by split).
  destruct (file_data (clear_rain st)) as [data|] eqn:Hfd; [|by eexists].
  unfold init_canvas_dimensions, py_floordiv.
  destruct (Z.eqb_spec (char_width (clear_rain st)) 0); [done|].
  destruct (Z.eqb_spec (char_height (clear_rain st)) 0); [done|].
  cbn [bind].
  set (st1 := set_dimensions (clear_rain st) _ _).
  assert (config_ok st1) as Hc2 by (destruct Hc1; by split).
  replace (file_data st1) with (Some data) by done.
  destruct (create_drops_total st1 Hc2) as (st2 & H1). rewrite H1. cbn [bind].
  assert (wf st2) as Hwf2.
  { eapply create_drops_wf; [exact Hc2| |exact H1]. by left. }
  destruct (create_drops_total st2 ltac:(by destruct Hwf2)) as (st3 & H2).
  rewrite H2. cbn [bind].
  assert (wf st3) as Hwf3.
  { eapply create_drops_wf; [by destruct Hwf2|by right|exact H2]. }
  assert (wf (set_running st3 true)) as Hwf4.
  { destruct Hwf3 as [[? ? ?] ? ? ?]. split; [by split|done..]. }
  destruct (update_rain_wf _ Hwf4) as (st4 & Htick & _). by exists st4.
Qed.

(** Opening a file and selecting a mode never raise either, as long as the
    font reports non-zero character sizes. *)
Lemma reachable_callbacks_return st :
  reachable st -> char_width st <> 0 -> char_height st <> 0 ->
  (forall sel w h, exists st', open_file sel w h st = Ok st') /\
  (forall m w h, exists st', select_mode m w h st = Ok st').
Proof.
  intros Hr Hcw Hch. pose proof (reachable_inv st Hr) as Hinv.
  assert (0 <= min_tail st <= max_tail st) as Ht.
  { destruct Hinv as [(_ & _ & _ & ?)|[[_ _ ?] _ _ _]]; done. }
  split.
  - intros [| |[|b data]] w h; try (by eexists). simpl.
    apply reset_rain_total; [|done..].
    split; simpl; [by eexists|lia|done].
  - intros m w h. unfold select_mode.
    destruct Hinv as [(Hf & _)|Hwf].
    + unfold reset_rain. simpl. rewrite Hf. by eexists.
    + apply reset_rain_total; [|done..].
      destruct Hwf as [[? ? ?] _ _ _]. by split.
Qed.

(** C5. In every state the application goes through, every drop has
    [0 <= index < file_size], the file being non-empty: the allocator and
    the recycle branch draw the index with [randrange(file_size)], and a
    frame that draws a glyph moves it to [(index + 1) mod file_size] and
    any other frame of a drop that is not recycled leaves it alone. With
    the three bytes "ABC" one drop draws A, B, C, A, B, C. *)
Theorem cursor_always_in_range :
  (forall st d, reachable st -> d ∈ drops st ->
     0 <= drop_index d < file_size st /\
     exists data, file_data st = Some data /\
                  file_size st = Z.of_nat (length data) /\ 1 <= file_size st) /\
  (forall st st' d,
     create_drops st = Ok st' -> 1 <= cols st -> 1 <= rows st ->
     d ∈ drops st' -> 0 <= drop_index d < file_size st') /\
  (forall st st' k d its,
     wf st -> running st = true -> update_rain st = Ok st' ->
     drops st !! k = Some d -> drop_items st !! k = Some its ->
     exists d' its' emitted draws,
       iteration st st' k d its d' its' emitted draws /\
       0 <= drop_index d' < file_size st' /\
       (drop_y d - drop_tail d < rows st ->
        drop_index d' =
          if (0 <=? drop_y d + 1) && (drop_y d + 1 <? rows st)
          then (drop_index d + 1) mod file_size st
          else drop_index d)) /\
  (st <- open_file (Contents [x41; x42; x43]) 10 200 abc_start ;;
   st' <- ticks 5 st ;;
   Ok (drawn_texts (calls (canvas st')), map drop_index (drops st')))
  = Ok (["A"; "B"; "C"; "A"; "B"; "C"]%string, [0]).
Proof.
  split; [|split; [|split]].
  - intros st d Hr Hin. pose proof (reachable_drop_ok st d Hr Hin) as [].
    split; [done|].
    destruct (reachable_inv st Hr) as [(_ & Hd & _)|[[(data & ? & ?) ? _] _ _ _]].
    + rewrite Hd in Hin. by apply not_elem_of_nil in Hin.
    + by exists data.
  - intros st st' d Hrun Hc Hr Hin.
    destruct (create_drops_inv st st' Hrun Hc Hr) as (ds & its & g & -> & Hpl & _).
    simpl in *. rewrite Forall_forall in Hpl.
    by destruct (placed_drop_ok _ _ (Hpl d Hin)).
  - intros st st' k d its Hwf Hrun Htick Hd Hits.
    destruct (tick_iteration st st' k d its Hwf Hrun Htick Hd Hits)
      as (d' & its' & emitted & draws & Hiter).
    exists d', its', emitted, draws. split; [exact Hiter|].
    destruct Hiter as (cvk & gk & cvk' & gk' & Hstep & _).
    pose proof (wf_rows_of_drop st k d Hwf Hd) as Hrows.
    pose proof (st_drop_ok_lookup st k d Hwf Hd) as Hok.
    destruct (update_rain_fields st st' Htick) as (_ & -> & _).
    split.
    + destruct (st_update_drop_ok st d its cvk gk Hwf Hok Hrows)
        as (d2 & its2 & cv2 & g2 & Heq & [] & _).
      rewrite Hstep in Heq. by injection Heq as -> _ _ _.
    + intros Hnot.
      destruct (st_update_drop_advance st d its cvk gk Hwf Hok Hnot)
        as (data & byte & _ & _ & Heq).
      cbv zeta in Heq. rewrite Hstep in Heq. by injection Heq as -> _ _ _.
  - vm_compute. reflexivity.
Qed.

(** C6. In every state the application goes through, every drop has
    [0 <= x] and [x + width <= cols]; so has every drop the allocator
    returns; and a recycled drop gets a column in [0, cols - width], which
    is 0 when that range has no other value. *)
Theorem column_range_always_in_grid :
  (forall st d, reachable st -> d ∈ drops st ->
     0 <= drop_x d /\ drop_x d + drop_width d <= cols st) /\
  (forall st st' d,
     create_drops st = Ok st' -> 1 <= cols st -> 1 <= rows st ->
     d ∈ drops st' -> 0 <= drop_x d /\ drop_x d + drop_width d <= cols st') /\
  (forall st st' k d its,
     wf st -> running st = true -> update_rain st = Ok st' ->
     drops st !! k = Some d -> drop_items st !! k = Some its ->
     exists d' its' emitted draws,
       iteration st st' k d its d' its' emitted draws /\
       0 <= drop_x d' /\ drop_x d' + drop_width d' <= cols st' /\
       (rows st <= drop_y d - drop_tail d ->
        0 <= drop_x d' <= cols st - drop_width d' /\
        (cols st - drop_width d' <= 0 -> drop_x d' = 0)) /\
       (drop_y d - drop_tail d < rows st ->
        drop_x d' = drop_x d /\ drop_width d' = drop_width d)).
Proof.
  split; [|split].
  - intros st d Hr Hin. by pose proof (reachable_drop_ok st d Hr Hin) as [].
  - intros st st' d Hrun Hc Hr Hin.
    destruct (create_drops_inv st st' Hrun Hc Hr) as (ds & its & g & -> & Hpl & _).
    simpl in *. rewrite Forall_forall in Hpl.
    by destruct (placed_drop_ok _ _ (Hpl d Hin)).
  - intros st st' k d its Hwf Hrun Htick Hd Hits.
    destruct (tick_iteration st st' k d its Hwf Hrun Htick Hd Hits)
      as (d' & its' & emitted & draws & Hiter).
    exists d', its', emitted, draws. split; [exact Hiter|].
    destruct Hiter as (cvk & gk & cvk' & gk' & Hstep & _).
    pose proof (wf_rows_of_drop st k d Hwf Hd) as Hrows.
    pose proof (st_drop_ok_lookup st k d Hwf Hd) as Hok.
    destruct (update_rain_fields st st' Htick) as (_ & _ & _ & _ & _ & _ & _ & _ & -> & _).
    destruct (st_update_drop_ok st d its cvk gk Hwf Hok Hrows)
      as (d2 & its2 & cv2 & g2 & Heq & [] & _).
    rewrite Hstep in Heq. injection Heq as -> _ _ _.
    split; [done|]. split; [done|]. split.
    + intros Hdue.
      destruct (st_update_drop_recycle st d its cvk gk Hwf Hok Hrows Hdue)
        as (d3 & g3 & Heq & _ & _ & Hx & Hx0 & _).
      rewrite Hstep in Heq. by injection Heq as -> _ _ _.
    + intros Hnot.
      destruct (st_update_drop_advance st d its cvk gk Hwf Hok Hnot)
        as (data & byte & _ & _ & Heq).
      cbv zeta in Heq. rewrite Hstep in Heq. by injection Heq as -> _ _ _.
Qed.

(** ** Counting frames until a drop is recycled *)

Lemma create_drops_wf_grid st st' :
  config_ok st -> 1 <= cols st -> 1 <= rows st ->
  create_drops st = Ok st' -> wf st'.
Proof.
  intros Hcfg Hc Hr Hrun.
  destruct (create_drops_inv st st' Hrun Hc Hr)
    as (ds & its & g & -> & Hpl & _ & Hlen & _).
  split; simpl.
  - by apply config_ok_set_alloc.
  - right. lia.
  - done.
  - eapply Forall_impl; [exact Hpl|]. intros d Hd. by apply placed_drop_ok.
Qed.

(** A drop is first recycled in frame number [rows + tail - y + 1]. *)
Lemma recycled_within_count n : forall st k d,
  wf st -> running st = true -> drops st !! k = Some d ->
  recycled_within n st k =
  (Z.to_nat (rows st + drop_tail d - drop_y d) <? n)%nat.
Proof.
  induction n as [|n IH]; intros st k d Hwf Hrun Hd; [done|].
  cbn [recycled_within]. unfold recycle_due. rewrite Hrun, Hd. cbn [andb].
  destruct (Z.geb_spec (drop_y d - drop_tail d) (rows st)) as [Hdue|Hnot].
  - cbn [orb]. symmetry. apply Nat.ltb_lt. lia.
  - cbn [orb].
    destruct (lookup_lt_is_Some_2 (drop_items st) k) as [its Hits].
    { destruct Hwf as [_ _ -> _]. by eapply lookup_lt_Some. }
    destruct (update_rain_wf st Hwf) as (st' & Htick & Hwf' & _).
    rewrite Htick.
    destruct (tick_iteration st st' k d its Hwf Hrun Htick Hd Hits)
      as (d' & its' & emitted & draws & cvk & gk & cvk' & gk' & Hstep & Hd' & _).
    pose proof (st_drop_ok_lookup st k d Hwf Hd) as Hok.
    destruct (st_update_drop_advance st d its cvk gk Hwf Hok)
      as (data & byte & _ & _ & Heq); [lia|].
    cbv zeta in Heq. rewrite Hstep in Heq. injection Heq as -> _ _ _.
    destruct (update_rain_fields st st' Htick)
      as (_ & _ & _ & _ & Hrun' & _ & _ & _ & _ & Hrows').
    rewrite (IH st' k _ Hwf' ltac:(congruence) Hd'). simpl. rewrite Hrows'.
    destruct (Nat.ltb_spec (Z.to_nat (rows st + drop_tail d - (drop_y d + 1))) n),
             (Nat.ltb_spec (Z.to_nat (rows st + drop_tail d - drop_y d)) (S n));
      try done; lia.
Qed.

(** C8, as stated, fails: in the scenario with all raw draws zero the
    allocator places four drops, and twelve frames later not one of them
    has been recycled. *)
Lemma end_to_end_12_frames_refuted :
  scenario scenario_zero /\
  exists st1,
    create_drops scenario_zero = Ok st1 /\ length (drops st1) = 4%nat /\
    recycled_within 12 st1 0 = false /\
    ~ all_recycled_within (Z.to_nat (rows st1 + 2)) st1.
Proof.
  split.
  - repeat split; try reflexivity. eexists. split; [reflexivity|]. reflexivity.
  - eexists. split; [vm_compute; reflexivity|].
    split; [reflexivity|]. split; [vm_compute; reflexivity|].
    intros Hall. specialize (Hall 0%nat ltac:(simpl; lia)).
    vm_compute in Hall. discriminate.
Qed.

(** C8, amended. In the scenario the allocator returns, whatever the
    generator yields; every drop it places has width 1 and tail 2 and
    starts at a row between -10 and 0; each of them is recycled within
    [2 * rows + tail + 1 = 23] frames, and none within the first
    [rows + tail = 12]. *)
Theorem end_to_end_23_frames st :
  scenario st ->
  exists st1,
    create_drops st = Ok st1 /\
    (forall d, d ∈ drops st1 ->
       drop_width d = 1 /\ drop_tail d = 2 /\ - 10 <= drop_y d <= 0) /\
    all_recycled_within (Z.to_nat (2 * rows st1 + 2 + 1)) st1 /\
    (forall k, (k < length (drops st1))%nat ->
       recycled_within (Z.to_nat (rows st1 + 2)) st1 k = false).
Proof.
  intros (Hc & Hr & Hm & Hfs & (data & Hfd & Hlen) & Hmin & Hmax & Hrun).
  assert (config_ok st) as Hcfg.
  { split; [exists data; split; [done|lia]|lia|lia]. }
  destruct (create_drops_total st Hcfg) as (st1 & Halloc).
  exists st1. split; [done|].
  pose proof (create_drops_wf_grid st st1 Hcfg ltac:(lia) ltac:(lia) Halloc) as Hwf.
  destruct (create_drops_inv st st1 Halloc ltac:(lia) ltac:(lia))
    as (ds & its & g & -> & Hpl & _).
  simpl in *. rewrite Forall_forall in Hpl.
  assert (forall d, d ∈ ds ->
            drop_width d = 1 /\ drop_tail d = 2 /\ - 10 <= drop_y d <= 0) as Hshape.
  { intros d Hin. destruct (Hpl d Hin) as ([] & _ & Hy & Ha).
    split; [by apply Ha|]. split; lia. }
  split; [done|]. split.
  - intros k Hk. simpl in Hk.
    destruct (lookup_lt_is_Some_2 ds k Hk) as [d Hd].
    rewrite (recycled_within_count _ _ k d Hwf Hrun Hd). simpl.
    destruct (Hshape d) as (_ & Ht & Hy); [by eapply list_elem_of_lookup_2|].
    apply Nat.ltb_lt. lia.
  - intros k Hk. simpl in Hk.
    destruct (lookup_lt_is_Some_2 ds k Hk) as [d Hd].
    rewrite (recycled_within_count _ _ k d Hwf Hrun Hd). simpl.
    destruct (Hshape d) as (_ & Ht & Hy); [by eapply list_elem_of_lookup_2|].
    apply Nat.ltb_ge. lia.
Qed.

(** ** Does every frame move every drop down? *)

Lemma reachable_ticks n : forall st st',
  reachable st -> ticks n st = Ok st' -> reachable st'.
Proof.
  induction n as [|n IH]; intros st st' Hr Hrun; simpl in Hrun.
  - by injection Hrun as <-.
  - destruct (update_rain st) as [st1|] eqn:Htick; [|discriminate].
    cbn [bind] in Hrun. eapply IH; [|exact Hrun]. by eapply reach_tick.
Qed.

Lemma reachable_open_ticks sel w h n st0 st :
  startup st0 ->
  (st1 <- open_file sel w h st0 ;; ticks n st1) = Ok st -> reachable st.
Proof.
  intros Hs Hrun. destruct (open_file sel w h st0) as [st1|] eqn:Hop; [|discriminate].
  cbn [bind] in Hrun. eapply reachable_ticks; [|exact Hrun].
  eapply reach_open; [|exact Hop]. by apply reach_startup.
Qed.

(** C7, as stated, fails: fourteen frames after the three-byte file was
    opened the only drop has its tail below the grid, and the next frame
    puts the head back on row 0 instead of one row lower. *)
Lemma frame_does_not_advance_recycled_drop :
  exists st st',
    (st1 <- open_file (Contents [x41; x42; x43]) 10 200 abc_start ;;
     ticks 14 st1) = Ok st /\
    reachable st /\ running st = true /\
    map drop_y (drops st) = [15] /\
    update_rain st = Ok st' /\
    map drop_y (drops st') = [0] /\
    ~ advances_every_drop st st'.
Proof.
  eexists _, _. split; [vm_compute; reflexivity|].
  split.
  { apply (reachable_open_ticks (Contents [x41; x42; x43]) 10 200 14 abc_start).
    - repeat split; simpl; lia.
    - vm_compute. reflexivity. }
  split; [reflexivity|]. split; [reflexivity|].
  split; [vm_compute; reflexivity|]. split; [reflexivity|].
  intros Hadv. destruct (Hadv 0%nat _ eq_refl) as (d' & Hd' & Hy).
  injection Hd' as <-. simpl in Hy. lia.
Qed.

(** C7, amended. A frame of a running application moves the head of
    every drop that is not recycled in that frame down by exactly one row
    and puts the head of a recycled drop on a row between [-rows] and 0.
    The other callbacks do not read the drops: each of them either returns
    the state it was given or gives the same result whatever the drops and
    item lists were, so apart from the allocator only frames shape them. *)
Theorem frame_advances_unrecycled_drops st :
  wf st -> running st = true ->
  exists st',
    update_rain st = Ok st' /\
    length (drops st') = length (drops st) /\
    (forall k d, drops st !! k = Some d ->
       exists d', drops st' !! k = Some d' /\
         (drop_y d - drop_tail d < rows st -> drop_y d' = drop_y d + 1) /\
         (rows st <= drop_y d - drop_tail d -> - rows st <= drop_y d' <= 0)) /\
    (forall sel w h,
       open_file sel w h st = Ok st \/
       forall ds its,
         open_file sel w h (set_alloc st ds its (random st)) =
         open_file sel w h st) /\
    (forall m w h ds its,
       select_mode m w h (set_alloc st ds its (random st)) =
       select_mode m w h st).
Proof.
  intros Hwf Hrun.
  destruct (update_rain_frame st Hwf Hrun)
    as (ds' & all' & cv' & g' & Htick & Hlen & _ & _ & _ & _ & Hper).
  exists (set_frame st ds' all' cv' g'). split; [done|]. split; [done|].
  split; [|split].
  - intros k d Hd.
    destruct (Hper k d Hd)
      as (its & cvk & gk & d' & its' & cvk' & gk' & _ & Hstep & Hd' & _).
    exists d'. split; [done|].
    pose proof (wf_rows_of_drop st k d Hwf Hd) as Hrows.
    pose proof (st_drop_ok_lookup st k d Hwf Hd) as Hok.
    split.
    + intros Hnot.
      destruct (st_update_drop_advance st d its cvk gk Hwf Hok Hnot)
        as (data & byte & _ & _ & Heq).
      cbv zeta in Heq. rewrite Hstep in Heq. by injection Heq as -> _ _ _.
    + intros Hdue.
      destruct (st_update_drop_recycle st d its cvk gk Hwf Hok Hrows Hdue)
        as (d3 & g3 & Heq & _ & Hy & _).
      rewrite Hstep in Heq. by injection Heq as -> _ _ _.
  - intros [| |[|b data]] w h; try (by left). right. reflexivity.
  - reflexivity.
Qed.

(** ** The theorems at concrete states *)

Lemma abc_opened_wf : wf abc_opened.
Proof.
  split.
  - split; [eexists; split; reflexivity|simpl; lia|simpl; lia].
  - right. simpl. lia.
  - reflexivity.
  - repeat constructor; simpl; try lia; auto. discriminate.
Qed.

Lemma abc_due_wf : wf abc_due.
Proof.
  split.
  - split; [eexists; split; reflexivity|simpl; lia|simpl; lia].
  - right. simpl. lia.
  - reflexivity.
  - repeat constructor; simpl; try lia; auto. discriminate.
Qed.

Lemma abc_due_reachable : reachable abc_due.
Proof.
  apply (reachable_open_ticks (Contents [x41; x42; x43]) 10 200 14 abc_start).
  - repeat split; simpl; lia.
  - vm_compute. reflexivity.
Qed.

Lemma recycle_iff_tail_off_grid_witness :
  wf abc_due /\ running abc_due = true /\
  update_rain abc_due = Ok abc_recycled /\
  exists d' its' emitted draws,
    recycled (mkDrop 0 15 1 5 0 "ascii") [5; 6; 7; 8; 9]%nat
             d' its' emitted draws.
Proof.
  split; [exact abc_due_wf|]. split; [reflexivity|].
  split; [vm_compute; reflexivity|].
  destruct (recycle_iff_tail_off_grid abc_due abc_recycled 0
              (mkDrop 0 15 1 5 0 "ascii") [5; 6; 7; 8; 9]%nat
              abc_due_wf eq_refl eq_refl eq_refl eq_refl)
    as (d' & its' & emitted & draws & _ & Hiff & _).
  exists d', its', emitted, draws. apply Hiff. simpl. lia.
Defined.

Lemma tail_bound_after_tick_witness :
  wf abc_opened /\ running abc_opened = true /\
  exists st',
    update_rain abc_opened = Ok st' /\
    forall k d' its',
      drops st' !! k = Some d' -> drop_items st' !! k = Some its' ->
      Z.of_nat (length its') <= drop_tail d'.
Proof.
  split; [exact abc_opened_wf|]. split; [reflexivity|].
  destruct (tail_bound_after_tick abc_opened abc_opened_wf eq_refl)
    as (st' & Htick & Hbound & _).
  exists st'. split; [exact Htick|exact Hbound].
Defined.

Lemma create_drops_disjoint_witness :
  (drops scenario_zero = [] \/ 1 <= cols scenario_zero /\ 1 <= rows scenario_zero) /\
  exists st',
    create_drops scenario_zero = Ok st' /\ length (drops st') = 4%nat /\
    pairwise_disjoint (drops st').
Proof.
  split; [left; reflexivity|].
  eexists. split; [vm_compute; reflexivity|]. split; [reflexivity|].
  apply (proj2 (create_drops_disjoint scenario_zero)).
  - vm_compute. reflexivity.
  - left. reflexivity.
Defined.

Lemma glyph_text_by_mode_witness :
  0 <= 2 < 10 /\ 3 <> 0 /\
  render 10 3 10 20 (Some [x41; x42; x43]) (mkDrop 0 1 1 5 1 "ascii") 2
         [1%nat] (mkCanvas 2 []) =
  Ok (2, [1%nat; 2%nat], mkCanvas 3 [CreateText 2 0 40 "B"]).
Proof.
  split; [lia|]. split; [lia|].
  destruct glyph_text_by_mode as (_ & _ & _ & _ & _ & _ & _ & Hdraw & _).
  apply (Hdraw 10 3 10 20 [x41; x42; x43] (mkDrop 0 1 1 5 1 "ascii") 2
               [1%nat] (mkCanvas 2 []) x42); simpl; try lia; reflexivity.
Defined.

Lemma ascii_whitespace_and_high_bytes_witness :
  (128 <= Byte.to_N xff)%N /\ glyph_text "ascii" xff = "."%string.
Proof.
  assert (128 <= Byte.to_N xff)%N as H by (vm_compute; discriminate).
  split; [exact H|].
  destruct ascii_whitespace_and_high_bytes as (_ & _ & _ & _ & _ & _ & _ & _ & Hhigh).
  exact (Hhigh xff H).
Defined.

Lemma degenerate_grid_no_drops_witness :
  (cols abc_start < 1 \/ rows abc_start < 1) /\
  create_drops abc_start = Ok abc_start /\
  exists st',
    update_rain abc_start = Ok st' /\ drops st' = [] /\
    drop_items st' = drop_items abc_start /\ canvas st' = canvas abc_start /\
    random st' = random abc_start.
Proof.
  assert (cols abc_start < 1 \/ rows abc_start < 1) as H by (left; simpl; lia).
  split; [exact H|].
  destruct degenerate_grid_no_drops as (Halloc & _ & Hframe).
  split; [exact (Halloc abc_start H)|exact (Hframe abc_start eq_refl)].
Defined.

Lemma cursor_always_in_range_witness :
  reachable abc_due /\
  forall d, d ∈ drops abc_due -> 0 <= drop_index d < file_size abc_due.
Proof.
  split; [exact abc_due_reachable|].
  intros d Hin.
  exact (proj1 (proj1 cursor_always_in_range abc_due d abc_due_reachable Hin)).
Defined.

Lemma column_range_always_in_grid_witness :
  reachable abc_due /\
  forall d, d ∈ drops abc_due ->
    0 <= drop_x d /\ drop_x d + drop_width d <= cols abc_due.
Proof.
  split; [exact abc_due_reachable|].
  intros d Hin.
  exact (proj1 column_range_always_in_grid abc_due d abc_due_reachable Hin).
Defined.

Lemma frame_advances_unrecycled_drops_witness :
  wf abc_opened /\ running abc_opened = true /\
  exists st',
    update_rain abc_opened = Ok st' /\
    length (drops st') = length (drops abc_opened).
Proof.
  split; [exact abc_opened_wf|]. split; [reflexivity|].
  destruct (frame_advances_unrecycled_drops abc_opened abc_opened_wf eq_refl)
    as (st' & Htick & Hlen & _).
  exists st'. split; [exact Htick|exact Hlen].
Defined.

Lemma end_to_end_23_frames_witness :
  scenario scenario_zero /\
  exists st1,
    create_drops scenario_zero = Ok st1 /\
    all_recycled_within (Z.to_nat (2 * rows st1 + 2 + 1)) st1.
Proof.
  assert (scenario scenario_zero) as H.
  { repeat split; try reflexivity. eexists. split; reflexivity. }
  split; [exact H|].
  destruct (end_to_end_23_frames scenario_zero H) as (st1 & Halloc & _ & Hall & _).
  exists st1. split; [exact Halloc|exact Hall].
Defined.

(** ** Further facts about frames *)

Lemma py_get_nat_inv {A} (l : list A) (i : nat) (a : A) :
  py_get l (Z.of_nat i) = Ok a -> l !! i = Some a.
Proof.
  unfold py_get.
  destruct (Z.ltb_spec (Z.of_nat i) 0); [lia|].
  destruct ((0 <=? Z.of_nat i) && (Z.of_nat i <? Z.of_nat (length l)));
    [|discriminate].
  rewrite Nat2Z.id. destruct (l !! i); [|discriminate]. by intros [= ->].
Qed.

Section FrameRelation.
Variable st : gui.
Variable Pd : Drop -> Prop.
Variable R : list (list nat) * Canvas * Rng -> list (list nat) * Canvas * Rng -> Prop.
Hypothesis R_refl : forall s, R s s.
Hypothesis R_trans : forall s1 s2 s3, R s1 s2 -> R s2 s3 -> R s1 s3.
Hypothesis R_step : forall i d its all cv g d' its' cv' g',
  Pd d -> all !! i = Some its ->
  st_update_drop st d its cv g = Ok (d', its', cv', g') ->
  R (all, cv, g) (<[i := its']> all, cv', g').

(** A relation that holds across every iteration of the loop body holds
    across the loop. *)
Lemma update_loop_rel ds : forall i all cv g ds' all' cv' g',
  Forall Pd ds ->
  update_loop (cols st) (rows st) (min_tail st) (max_tail st) (file_size st)
              (char_width st) (char_height st) (mode_var st) (file_data st)
              i ds all cv g = Ok (ds', all', cv', g') ->
  R (all, cv, g) (all', cv', g').
Proof.
  induction ds as [|d rest IH]; intros i all cv g ds' all' cv' g' Hall Hrun.
  - simpl in Hrun. injection Hrun as <- <- <- <-. apply R_refl.
  - apply Forall_cons in Hall as [Hd Hrest]. cbn [update_loop] in Hrun.
    destruct (py_get all (Z.of_nat i)) as [its|] eqn:Hget; [|discriminate].
    cbn [bind] in Hrun. apply py_get_nat_inv in Hget.
    destruct (update_drop _ _ _ _ _ _ _ _ _ d its cv g)
      as [[[[d1 its1] cv1] g1]|] eqn:Hstep; [|discriminate].
    cbn [bind] in Hrun.
    destruct (update_loop _ _ _ _ _ _ _ _ _ (S i) rest _ cv1 g1)
      as [[[[ds2 all2] cv2] g2]|] eqn:Hloop; [|discriminate].
    cbn [bind] in Hrun. injection Hrun as <- <- <- <-.
    eapply R_trans; [|eapply IH; [exact Hrest|exact Hloop]].
    eapply R_step; [exact Hd|exact Hget|exact Hstep].
Qed.

Lemma update_rain_rel st' :
  Forall Pd (drops st) -> running st = true -> update_rain st = Ok st' ->
  R (drop_items st, canvas st, random st) (drop_items st', canvas st', random st').
Proof.
  intros Hall Hrun Htick. unfold update_rain in Htick. rewrite Hrun in Htick.
  cbn [negb] in Htick.
  destruct (update_loop _ _ _ _ _ _ _ _ _ _ _ _ _ _)
    as [[[[ds its] cv] g]|] eqn:Hloop; [|discriminate].
  cbn [bind] in Htick. injection Htick as <-. simpl.
  eapply update_loop_rel; [exact Hall|exact Hloop].
Qed.
End FrameRelation.

Lemma Forall_map_Delete st (its : list nat) :
  Forall (glyph_in_grid st) (map Delete its).
Proof. apply Forall_forall. intros c Hc. apply list_elem_of_fmap in Hc as (? & -> & _). done. Qed.

(** X2. All a frame sends to the canvas is appended to what the canvas
    had received: deletions of single items and glyphs of bytes of the
    file, each drawn at the pixel origin of a cell of the grid. A frame
    never clears the canvas. *)
Theorem frame_draws_inside_grid st st' :
  wf st -> running st = true -> update_rain st = Ok st' ->
  exists emitted,
    calls (canvas st') = calls (canvas st) ++ emitted /\
    Forall (glyph_in_grid st) emitted.
Proof.
  intros Hwf Hrun Htick.
  destruct (wf_grid st Hwf) as [Hnil|Hrows].
  { exists []. unfold update_rain in Htick. rewrite Hrun, Hnil in Htick.
    cbn [negb update_loop bind] in Htick. injection Htick as <-. simpl.
    by rewrite app_nil_r. }
  apply (update_rain_rel st (st_drop_ok st)
           (fun s s' => exists emitted,
              calls s'.1.2 = calls s.1.2 ++ emitted /\
              Forall (glyph_in_grid st) emitted) ) with (st' := st');
    try done.
  - intros s. exists []. by rewrite app_nil_r.
  - intros s1 s2 s3 (e1 & H1 & F1) (e2 & H2 & F2). exists (e1 ++ e2).
    split; [by rewrite H2, H1, app_assoc|by apply Forall_app].
  - intros i d its all cv g d' its' cv' g' Hok _ Hstep. simpl.
    destruct (Z.le_gt_cases (rows st) (drop_y d - drop_tail d)) as [Hdue|Hnot].
    + destruct (st_update_drop_recycle st d its cv g Hwf Hok Hrows Hdue)
        as (d2 & g2 & Heq & _).
      rewrite Hstep in Heq. injection Heq as _ _ -> _. simpl.
      eexists. split; [reflexivity|apply Forall_map_Delete].
    + destruct (st_update_drop_advance st d its cv g Hwf Hok Hnot)
        as (data & byte & Hdata & Hbyte & Heq).
      cbv zeta in Heq. rewrite Hstep in Heq. injection Heq as _ _ -> _. simpl.
      eexists. split; [reflexivity|]. apply Forall_app.
      split; [|apply Forall_map_Delete].
      destruct (Z.leb_spec 0 (drop_y d + 1)), (Z.ltb_spec (drop_y d + 1) (rows st));
        simpl; try done.
      apply Forall_singleton. simpl.
      exists (drop_x d), (drop_y d + 1), data, byte, (drop_mode d).
      destruct Hok. repeat split; try done; try lia.
      by eapply list_elem_of_lookup_2.
  - destruct Hwf. done.
Qed.

(** X3. A frame takes random values exactly when it recycles a drop: the
    generator is left as it was if and only if no drop had its tail below
    the grid when the frame began. *)
Theorem frame_draws_random_iff_recycle st st' :
  wf st -> running st = true -> update_rain st = Ok st' ->
  (random st' = random st <-> forall k, recycle_due st k = false).
Proof.
  intros Hwf Hrun Htick. split.
  - intros Hsame k. unfold recycle_due. rewrite Hrun. cbn [andb].
    destruct (drops st !! k) as [d|] eqn:Hd; [|done].
    destruct (Z.geb_spec (drop_y d - drop_tail d) (rows st)) as [Hdue|]; [|done].
    exfalso.
    destruct (update_rain_frame st Hwf Hrun)
      as (ds' & all' & cv' & g' & Heq & _ & _ & _ & _ & _ & Hper).
    rewrite Htick in Heq. injection Heq as ->. simpl in Hsame.
    destruct (Hper k d Hd)
      as (its & cvk & gk & d' & its' & cvk' & gk' & _ & Hstep & _ & _ & _ & _ & _ & Hp1 & Hp2).
    pose proof (wf_rows_of_drop st k d Hwf Hd) as Hrows.
    pose proof (st_drop_ok_lookup st k d Hwf Hd) as Hok.
    destruct (st_update_drop_recycle st d its cvk gk Hwf Hok Hrows ltac:(lia))
      as (d2 & g2 & Heq & _ & _ & _ & _ & _ & Hp).
    rewrite Hstep in Heq. injection Heq as _ _ _ ->.
    rewrite Hsame in Hp2. lia.
  - intros Hnone.
    apply (update_rain_rel st
             (fun d => st_drop_ok st d /\ drop_y d - drop_tail d < rows st)
             (fun s s' => s'.2 = s.2)) with (st' := st'); try done.
    + intros s1 s2 s3 H1 H2. congruence.
    + intros i d its all cv g d' its' cv' g' [Hok Hnot] _ Hstep. simpl.
      destruct (st_update_drop_advance st d its cv g Hwf Hok Hnot)
        as (data & byte & _ & _ & Heq).
      cbv zeta in Heq. rewrite Hstep in Heq. by injection Heq as _ _ _ ->.
    + apply Forall_lookup. intros k d Hd.
      split; [by eapply st_drop_ok_lookup|].
      specialize (Hnone k). unfold recycle_due in Hnone.
      rewrite Hrun, Hd in Hnone. cbn [andb] in Hnone.
      destruct (Z.geb_spec (drop_y d - drop_tail d) (rows st)); [done|lia].
Qed.

(** ** The canvas and the item lists *)

Lemma fold_delete (l : list nat) (s : gset nat) :
  fold_left apply_call (map Delete l) s = s ∖ list_to_set l.
Proof.
  revert s. induction l as [|a l IH]; intros s; simpl.
  - apply set_eq. intros x. rewrite elem_of_difference, elem_of_empty. tauto.
  - rewrite IH. apply set_eq. intros x.
    rewrite !elem_of_difference, elem_of_union, !elem_of_singleton. tauto.
Qed.

Lemma live_app cv n cs :
  live (mkCanvas n (calls cv ++ cs)) = fold_left apply_call cs (live cv).
Proof. unfold live. simpl. apply fold_left_app. Qed.

(** Replacing the list of one drop by a list of ids that were its own or
    are new to the canvas keeps the account, when the canvas changed
    accordingly. *)
Lemma tracked_replace all cv i its its' cv' :
  tracked all cv -> all !! i = Some its -> NoDup its' ->
  live cv' = (live cv ∖ list_to_set its) ∪ list_to_set its' ->
  (forall id, id ∈ its' -> id ∈ its \/ id ∉ live cv) ->
  (forall id, id ∈ live cv' -> (id < next_id cv')%nat) ->
  tracked (<[i := its']> all) cv'.
Proof.
  intros [Hlive Hnd Hapart Hfresh] Hi Hnd' Hlive' Hnew Hfresh'.
  pose proof (lookup_lt_Some _ _ _ Hi) as Hlt.
  assert (forall k l id, k <> i -> all !! k = Some l -> id ∈ l -> id ∉ its) as Hother.
  { intros k l id Hk Hl Hin Hin'. apply Hk. by eapply Hapart. }
  split.
  - intros id. rewrite Hlive'. rewrite elem_of_union, elem_of_difference.
    rewrite !elem_of_list_to_set. split.
    + intros [[Hin Hnot]|Hin].
      * apply Hlive in Hin as (k & l & Hk & Hl).
        destruct (decide (k = i)) as [->|Hne]; [congruence|].
        exists k, l. by rewrite list_lookup_insert_ne.
      * exists i, its'. by rewrite list_lookup_insert_eq.
    + intros (k & l & Hk & Hl).
      destruct (decide (k = i)) as [->|Hne].
      * rewrite list_lookup_insert_eq in Hk by done. injection Hk as <-. by right.
      * rewrite list_lookup_insert_ne in Hk by done. left.
        split; [apply Hlive; by exists k, l|by eapply Hother].
  - intros k l Hk. destruct (decide (k = i)) as [->|Hne].
    + rewrite list_lookup_insert_eq in Hk by done. by injection Hk as <-.
    + rewrite list_lookup_insert_ne in Hk by done. by eapply Hnd.
  - intros k k' l l' id Hk Hk' Hl Hl'.
    destruct (decide (k = i)) as [->|Hne], (decide (k' = i)) as [->|Hne'];
      try done.
    + rewrite list_lookup_insert_eq in Hk by done. injection Hk as <-.
      rewrite list_lookup_insert_ne in Hk' by done. exfalso.
      destruct (Hnew id Hl) as [Hin|Hout].
      * by eapply (Hother k' l' id).
      * apply Hout, Hlive. by exists k', l'.
    + rewrite list_lookup_insert_eq in Hk' by done. injection Hk' as <-.
      rewrite list_lookup_insert_ne in Hk by done. exfalso.
      destruct (Hnew id Hl') as [Hin|Hout].
      * by eapply (Hother k l id).
      * apply Hout, Hlive. by exists k, l.
    + rewrite list_lookup_insert_ne in Hk by done.
      rewrite list_lookup_insert_ne in Hk' by done. by eapply Hapart.
  - done.
Qed.

(** One iteration of the frame loop keeps the account. *)
Lemma st_update_drop_tracked st i d its all cv g d' its' cv' g' :
  wf st -> 0 <= rows st -> st_drop_ok st d ->
  tracked all cv -> all !! i = Some its ->
  st_update_drop st d its cv g = Ok (d', its', cv', g') ->
  tracked (<[i := its']> all) cv'.
Proof.
  intros Hwf Hrows Hok Htr Hi Hstep.
  assert (forall id, id ∈ its -> id ∈ live cv) as Hits.
  { intros id Hin. apply (tr_live _ _ Htr). by exists i, its. }
  destruct (Z.le_gt_cases (rows st) (drop_y d - drop_tail d)) as [Hdue|Hnot].
  - destruct (st_update_drop_recycle st d its cv g Hwf Hok Hrows Hdue)
      as (d2 & g2 & Heq & _).
    rewrite Hstep in Heq. injection Heq as _ -> -> _.
    eapply tracked_replace; [exact Htr|exact Hi|constructor| | |].
    + rewrite live_app, fold_delete. apply set_eq. intros x.
      rewrite elem_of_union, (elem_of_list_to_set x []), elem_of_nil. tauto.
    + intros id Hin. by apply not_elem_of_nil in Hin.
    + intros id. rewrite live_app, fold_delete. simpl.
      rewrite elem_of_difference. intros [Hin _].
      by apply (tr_fresh _ _ Htr).
  - destruct (st_update_drop_advance st d its cv g Hwf Hok Hnot)
      as (data & byte & _ & _ & Heq).
    cbv zeta in Heq. rewrite Hstep in Heq. injection Heq as _ -> -> _.
    pose proof (tr_nodup _ _ Htr i its Hi) as Hnd.
    assert (next_id cv ∉ live cv) as Hnew.
    { intros Hin. apply (tr_fresh _ _ Htr) in Hin. lia. }
    destruct ((0 <=? drop_y d + 1) && (drop_y d + 1 <? rows st)).
    + set (items1 := its ++ [next_id cv]).
      set (e := (length items1 - Z.to_nat (drop_tail d))%nat).
      assert (NoDup items1) as Hnd1.
      { apply NoDup_app. split; [done|]. split; [|apply NoDup_singleton].
        intros id Hin Hin'. apply list_elem_of_singleton in Hin'. subst id.
        by apply Hnew, Hits. }
      pose proof (take_drop e items1) as Hsplit.
      rewrite <- Hsplit in Hnd1. apply NoDup_app in Hnd1 as (_ & Hdisj & Hndd).
      assert (forall id, id ∈ items1 <-> id ∈ take e items1 \/ id ∈ drop e items1)
        as Hmem.
      { intros id. rewrite <- Hsplit at 1. apply elem_of_app. }
      assert (forall id, id ∈ items1 <-> id ∈ its \/ id = next_id cv) as Hmem1.
      { intros id. unfold items1. rewrite elem_of_app, list_elem_of_singleton. done. }
      eapply tracked_replace; [exact Htr|exact Hi|exact Hndd| | |].
      * rewrite live_app, fold_left_app, fold_delete. simpl.
        apply set_eq. intros id.
        repeat (rewrite elem_of_union || rewrite elem_of_difference ||
                rewrite elem_of_list_to_set || rewrite elem_of_singleton).
        specialize (Hmem id). specialize (Hmem1 id). specialize (Hdisj id).
        specialize (Hits id). split.
        -- intros [[Hin| ->] Hnt].
           ++ destruct (decide (id ∈ its)) as [Hi1|Hi1]; [|by left].
              right. assert (id ∈ items1) as H1 by (apply Hmem1; by left).
              apply Hmem in H1 as [?|?]; done.
           ++ right. assert (next_id cv ∈ items1) as H1 by (apply Hmem1; by right).
              apply Hmem in H1 as [?|?]; done.
        -- intros [[Hin Hout]|Hin].
           ++ split; [by left|]. intros Ht.
              assert (id ∈ items1) as H1 by (apply Hmem; by left).
              apply Hmem1 in H1 as [?| ->]; done.
           ++ assert (id ∈ items1) as H1 by (apply Hmem; by right).
              split; [|intros Ht; by apply Hdisj in Ht].
              apply Hmem1 in H1 as [?| ->]; [left; by apply Hits|by right].
      * intros id Hin. assert (id ∈ items1) as H1 by (apply Hmem; by right).
        apply Hmem1 in H1 as [?| ->]; [by left|by right].
      * intros id. rewrite live_app, fold_left_app, fold_delete. simpl.
        rewrite elem_of_difference, elem_of_union, elem_of_singleton.
        intros [[Hin| ->] _]; [|lia].
        apply (tr_fresh _ _ Htr) in Hin. lia.
    + set (e := (length its - Z.to_nat (drop_tail d))%nat).
      pose proof (take_drop e its) as Hsplit.
      pose proof Hnd as Hnd1.
      rewrite <- Hsplit in Hnd1. apply NoDup_app in Hnd1 as (_ & Hdisj & Hndd).
      assert (forall id, id ∈ its <-> id ∈ take e its \/ id ∈ drop e its) as Hmem.
      { intros id. rewrite <- Hsplit at 1. apply elem_of_app. }
      eapply tracked_replace; [exact Htr|exact Hi|exact Hndd| | |].
      * rewrite live_app, fold_left_app, fold_delete. simpl.
        apply set_eq. intros id.
        repeat (rewrite elem_of_union || rewrite elem_of_difference ||
                rewrite elem_of_list_to_set).
        specialize (Hmem id). specialize (Hdisj id). specialize (Hits id). split.
        -- intros [Hin Hnt].
           destruct (decide (id ∈ its)) as [Hi1|Hi1]; [|by left].
           right. apply Hmem in Hi1 as [?|?]; done.
        -- intros [[Hin Hout]|Hin].
           ++ split; [done|]. intros Ht. apply Hout, Hmem. by left.
           ++ split; [apply Hits, Hmem; by right|].
              intros Ht; by apply Hdisj in Ht.
      * intros id Hin. left. apply Hmem. by right.
      * intros id. rewrite live_app, fold_left_app, fold_delete. simpl.
        rewrite elem_of_difference. intros [Hin _].
        by apply (tr_fresh _ _ Htr).
Qed.

Lemma update_rain_tracked st st' :
  wf st -> tracked (drop_items st) (canvas st) -> update_rain st = Ok st' ->
  tracked (drop_items st') (canvas st').
Proof.
  intros Hwf Htr Htick. destruct (running st) eqn:Hrun.
  2: { unfold update_rain in Htick. rewrite Hrun in Htick. by injection Htick as <-. }
  destruct (wf_grid st Hwf) as [Hnil|Hrows].
  { unfold update_rain in Htick. rewrite Hrun, Hnil in Htick.
    cbn [negb update_loop bind] in Htick. by injection Htick as <-. }
  apply (update_rain_rel st (st_drop_ok st)
           (fun s s' => tracked s.1.1 s.1.2 -> tracked s'.1.1 s'.1.2))
    with (st' := st'); try done.
  - intros s1 s2 s3 H1 H2 H. auto.
  - intros i d its all cv g d' its' cv' g' Hok Hi Hstep Htr0. simpl in *.
    by eapply st_update_drop_tracked.
  - by destruct Hwf.
Qed.

(** ** More about what the allocator and the recycle branch produce *)

Lemma create_drops_set_alloc st st' :
  create_drops st = Ok st' -> exists ds its g, st' = set_alloc st ds its g.
Proof.
  unfold create_drops. destruct ((cols st <? 1) || (rows st <? 1)).
  - intros [= <-]. exists (drops st), (drop_items st), (random st). by destruct st.
  - destruct (create_loop _ _ _ _ _ _ _ _ _ _ _ _) as [[[ds its] g]|]; [|discriminate].
    cbn [bind]. intros [= <-]. by exists ds, its, g.
Qed.

Section Provenance.
Variables (cols rows min_tail max_tail file_size : Z) (mode : string).
Variable Q : Drop -> Prop.
Hypothesis Q_new : forall x w gw g d g',
  alloc_width cols mode x gw = Ok (w, g) ->
  new_drop rows min_tail max_tail file_size mode x w g = Ok (d, g') -> Q d.

(** What holds of every drop [new_drop] makes holds of every drop the
    sweep adds. *)
Lemma create_loop_new_drops fuel : forall x occupied ds its g ds' its' g',
  create_loop cols rows min_tail max_tail file_size mode
              fuel x occupied ds its g = Ok (ds', its', g') ->
  Forall Q ds -> Forall Q ds'.
Proof.
  induction fuel as [|fuel IH]; intros x occupied ds its g ds' its' g';
    cbn [create_loop]; destruct (x <? cols); intros Hrun Hall;
    try discriminate; try (by injection Hrun as <- _ _).
  unfold random_lt_half, next_raw in Hrun.
  destruct (Z.even (stream g (pos g))); [|by eapply IH].
  destruct (alloc_width cols mode x _) as [[w g2]|] eqn:Hw; [|discriminate].
  cbn [bind] in Hrun.
  destruct ((w =? 2) && (x >=? cols - 1)); [by eapply IH|].
  destruct (any (py_slice occupied x (x + w))); [by eapply IH|].
  destruct (mark_occupied occupied x w) as [occ'|]; [|discriminate].
  cbn [bind] in Hrun.
  destruct (new_drop rows min_tail max_tail file_size mode x w g2)
    as [[d g3]|] eqn:Hnew; [|discriminate].
  cbn [bind] in Hrun. eapply IH; [exact Hrun|].
  apply Forall_app. split; [done|]. apply Forall_singleton. by eapply Q_new.
Qed.
End Provenance.

(** The mode stored in a new drop: the selected mode, or in mixed mode
    one of the two others, chosen by a draw of its own. *)
Lemma new_drop_mode rows min_tail max_tail file_size mode x w g d g' :
  new_drop rows min_tail max_tail file_size mode x w g = Ok (d, g') ->
  (mode <> "mixed"%string -> drop_mode d = mode) /\
  (mode = "mixed"%string ->
   drop_mode d = "ascii"%string \/ drop_mode d = "hex"%string).
Proof.
  unfold new_drop.
  destruct (randint 0 rows g) as [[r g1]|]; [|discriminate]. cbn [bind].
  destruct (randint min_tail max_tail g1) as [[t g2]|]; [|discriminate].
  cbn [bind].
  destruct (randrange file_size g2) as [[ix g3]|]; [|discriminate]. cbn [bind].
  destruct (String.eqb_spec mode "mixed") as [Hm|Hm].
  - destruct (choice_pair "ascii"%string "hex"%string g3) as (m & -> & Hv).
    cbn [bind]. intros [= <- <-]. simpl. split; [done|]. by intros _.
  - intros [= <- <-]. simpl. split; done.
Qed.

Lemma recycle_mode_inv cols rows min_tail max_tail file_size gm d its cv g
    d' its' cv' g' :
  recycle cols rows min_tail max_tail file_size gm d its cv g
    = Ok (d', its', cv', g') ->
  (gm <> "mixed"%string -> drop_mode d' = gm) /\
  (gm = "mixed"%string ->
   drop_mode d' = "ascii"%string \/ drop_mode d' = "hex"%string) /\
  (gm = "ascii"%string -> drop_width d' = 1).
Proof.
  unfold recycle.
  destruct (recycle_width cols gm d g) as [[w g1]|] eqn:Hw; [|discriminate].
  cbn [bind].
  destruct (if Z.max 0 (cols - w) >? 0 then _ else _) as [[x g2]|]; [|discriminate].
  cbn [bind].
  destruct (randint 0 rows g2) as [[r g3]|]; [|discriminate]. cbn [bind].
  destruct (randint min_tail max_tail g3) as [[t g4]|]; [|discriminate].
  cbn [bind].
  destruct (randrange file_size g4) as [[ix g5]|]; [|discriminate]. cbn [bind].
  assert (gm = "ascii"%string -> w = 1) as Hascii.
  { intros ->. unfold recycle_width in Hw. simpl in Hw. by injection Hw as <- _. }
  destruct (String.eqb_spec gm "mixed") as [Hm|Hm].
  - destruct (choice_pair "ascii"%string "hex"%string g5) as (m & -> & Hv).
    cbn [bind]. intros [= <- _ _ _]. simpl. split; [done|]. split; [by intros _|done].
  - cbn [bind]. intros [= <- _ _ _]. simpl. split; [done|]. split; done.
Qed.

Lemma create_drops_fit st st' :
  config_ok st -> 1 <= cols st -> 1 <= rows st ->
  create_drops st = Ok st' -> Forall (drop_fit st') (drops st').
Proof.
  intros [_ _ Ht] Hc Hr Hrun.
  destruct (create_drops_inv st st' Hrun Hc Hr) as (ds & its & g & Heq & Hpl & _).
  assert (Forall (fun d =>
            (mode_var st <> "mixed"%string -> drop_mode d = mode_var st) /\
            (mode_var st = "mixed"%string ->
             drop_mode d = "ascii"%string \/ drop_mode d = "hex"%string)) ds)
    as Hmode.
  { unfold create_drops in Hrun.
    destruct (Z.ltb_spec (cols st) 1); [lia|].
    destruct (Z.ltb_spec (rows st) 1); [lia|]. simpl in Hrun.
    destruct (create_loop _ _ _ _ _ _ _ _ _ _ _ _) as [[[ds0 its0] g0]|] eqn:Hloop;
      [|discriminate].
    cbn [bind] in Hrun. rewrite Heq in Hrun.
    assert (ds0 = ds) as <-.
    { by injection Hrun. }
    eapply create_loop_new_drops; [|exact Hloop|constructor].
    intros x w gw g1 d g' _ Hnew. by eapply new_drop_mode. }
  subst st'. simpl. apply Forall_lookup. intros k d Hd.
  rewrite Forall_lookup in Hpl, Hmode.
  destruct (Hpl k d Hd) as ([] & _ & Hy & Ha).
  destruct (Hmode k d Hd) as [Hm1 Hm2].
  split; simpl; try done. lia.
Qed.

Lemma update_rain_fit st st' :
  wf st -> Forall (drop_fit st) (drops st) -> update_rain st = Ok st' ->
  Forall (drop_fit st') (drops st').
Proof.
  intros Hwf Hfit Htick. destruct (running st) eqn:Hrun.
  2: { unfold update_rain in Htick. rewrite Hrun in Htick. by injection Htick as <-. }
  destruct (update_rain_frame st Hwf Hrun)
    as (ds' & all' & cv' & g' & Heq & Hlen & _ & _ & _ & _ & Hper).
  rewrite Htick in Heq. injection Heq as ->. simpl.
  apply Forall_lookup. intros k d' Hk.
  destruct (lookup_lt_is_Some_2 (drops st) k) as [d Hd].
  { rewrite <- Hlen. by eapply lookup_lt_Some. }
  destruct (Hper k d Hd)
    as (its & cvk & gk & d1 & its1 & cvk' & gk' & _ & Hstep & Hd1 & _).
  rewrite Hk in Hd1. injection Hd1 as <-.
  pose proof (wf_rows_of_drop st k d Hwf Hd) as Hrows.
  pose proof (st_drop_ok_lookup st k d Hwf Hd) as Hok.
  rewrite Forall_lookup in Hfit. destruct (Hfit k d Hd) as [Hf1 Hf2 Hf3 Hf4].
  assert (0 <= min_tail st) as Hmin by (destruct Hwf as [[_ _ ?] _ _ _]; lia).
  destruct (Z.le_gt_cases (rows st) (drop_y d - drop_tail d)) as [Hdue|Hnot].
  - destruct (st_update_drop_recycle st d its cvk gk Hwf Hok Hrows Hdue)
      as (d2 & g2 & Heq & [] & Hy & _).
    rewrite Hstep in Heq. injection Heq as -> _ _ _.
    unfold st_update_drop, update_drop in Hstep.
    destruct (Z.geb_spec (drop_y d - drop_tail d) (rows st)); [|lia].
    apply recycle_mode_inv in Hstep as (Hm1 & Hm2 & Hm3).
    split; simpl; try done. lia.
  - destruct (st_update_drop_advance st d its cvk gk Hwf Hok Hnot)
      as (data & byte & _ & _ & Heq).
    cbv zeta in Heq. rewrite Hstep in Heq. injection Heq as -> _ _ _.
    split; simpl; try done. lia.
Qed.

(** ** The invariant of the application built by [__init__] *)

Lemma tracked_empty all cv :
  Forall (fun l => l = []) all -> live cv = ∅ -> tracked all cv.
Proof.
  intros Hall Hlive. rewrite Forall_lookup in Hall. split.
  - intros id. rewrite Hlive. split; [intros Hin; by apply not_elem_of_empty in Hin|].
    intros (k & its & Hk & Hin). rewrite (Hall k its Hk) in Hin.
    by apply not_elem_of_nil in Hin.
  - intros k its Hk. rewrite (Hall k its Hk). constructor.
  - intros k k' its its' id Hk _ Hin. rewrite (Hall k its Hk) in Hin.
    by apply not_elem_of_nil in Hin.
  - intros id. rewrite Hlive. intros Hin. by apply not_elem_of_empty in Hin.
Qed.

Lemma live_delete_all cv : live (canvas_delete_all cv) = ∅.
Proof. unfold canvas_delete_all. by rewrite live_app. Qed.

(** A reset with a loaded file is: clear, measure, allocate, then one
    frame on the freshly allocated state [st3]. *)
Lemma reset_rain_stages st w h st' :
  config_ok st -> reset_rain w h st = Ok st' ->
  exists st3,
    update_rain st3 = Ok st' /\ wf st3 /\ running st3 = true /\
    Forall (drop_fit st3) (drops st3) /\
    Forall (fun l => l = []) (drop_items st3) /\
    canvas st3 = canvas_delete_all (canvas st) /\
    file_data st3 = file_data st /\ min_tail st3 = min_tail st /\
    max_tail st3 = max_tail st /\ mode_var st3 = mode_var st /\
    char_width st3 = char_width st /\ char_height st3 = char_height st.
Proof.
  intros Hcfg Hrun. unfold reset_rain in Hrun.
  assert (config_ok (clear_rain st)) as Hc1 by (destruct Hcfg; by split).
  destruct (file_data (clear_rain st)) as [data|] eqn:Hfd.
  2: { destruct Hc1 as [(? & Hd & _) _ _]. congruence. }
  unfold init_canvas_dimensions in Hrun.
  destruct (py_floordiv _ (char_width _)) as [c|]; [|discriminate].
  cbn [bind] in Hrun.
  destruct (py_floordiv _ (char_height _)) as [r|]; [|discriminate].
  cbn [bind] in Hrun.
  set (st1 := set_dimensions (clear_rain st) c r) in *.
  assert (config_ok st1) as Hc2 by (destruct Hc1; by split).
  replace (file_data st1) with (Some data) in Hrun by done.
  destruct (create_drops st1) as [st2|] eqn:H1; [|discriminate].
  cbn [bind] in Hrun.
  assert (wf st2) as Hwf2.
  { eapply create_drops_wf; [exact Hc2| |exact H1]. by left. }
  destruct (create_drops st2) as [st3|] eqn:H2; [|discriminate].
  cbn [bind] in Hrun.
  assert (wf st3) as Hwf3.
  { eapply create_drops_wf; [by destruct Hwf2|by right|exact H2]. }
  destruct (create_drops_set_alloc st1 st2 H1) as (ds2 & its2 & g2 & E2).
  destruct (create_drops_set_alloc st2 st3 H2) as (ds3 & its3 & g3 & E3).
  assert (Forall (drop_fit st3) (drops st3) /\
          Forall (fun l => l = []) (drop_items st3)) as [Hfit Hnil].
  { destruct (Z.lt_ge_cases (cols st2) 1) as [Hc|Hc];
      [|destruct (Z.lt_ge_cases (rows st2) 1) as [Hr|Hr]].
    1,2: rewrite create_drops_degenerate in H2 by auto; injection H2 as <-;
         rewrite create_drops_degenerate in H1 by (rewrite E2 in *; simpl in *; auto);
         injection H1 as <-; by split.
    split; [eapply create_drops_fit; [by destruct Hwf2|done..]|].
    by destruct (create_drops_inv st2 st3 H2 Hc Hr)
      as (ds & its & g & -> & _ & _ & _ & ?). }
  exists (set_running st3 true). split; [done|].
  split; [destruct Hwf3 as [[? ? ?] ? ? ?]; split; [by split|done..]|].
  split; [done|].
  split.
  { eapply Forall_impl; [exact Hfit|]. intros d []. by split. }
  split; [done|].
  rewrite E3, E2. by repeat split.
Qed.

Lemma frame_steady st st' :
  steady st -> update_rain st = Ok st' -> steady st'.
Proof.
  intros [Hinv Hfit Htr Hbound Hrun Htails] Htick.
  assert (running st = false -> st' = st) as Hidle.
  { intros Hoff. unfold update_rain in Htick. rewrite Hoff in Htick.
    by injection Htick as <-. }
  destruct Hinv as [(Hf & Hd & Hi & Ht)|Hwf].
  - rewrite Hidle; [by split; [left|..]|].
    destruct (running st); [|done]. exfalso. by apply Hrun.
  - destruct (update_rain_wf st Hwf) as (st2 & Heq & Hwf2 & Hb2).
    rewrite Htick in Heq. injection Heq as <-.
    destruct (update_rain_fields st st' Htick)
      as (Hfd & _ & Hmin & Hmax & Hr & _).
    split.
    + by right.
    + exact (update_rain_fit st st' Hwf Hfit Htick).
    + exact (update_rain_tracked st st' Hwf Htr Htick).
    + destruct (running st) eqn:Hon; [by apply Hb2|].
      by rewrite (Hidle eq_refl).
    + by rewrite Hr, Hfd.
    + by rewrite Hmin, Hmax.
Qed.

Lemma reset_steady st w h st' :
  config_ok st -> min_tail st = 5 -> max_tail st = 15 ->
  reset_rain w h st = Ok st' -> steady st'.
Proof.
  intros Hcfg Hmin Hmax Hrun.
  destruct (reset_rain_stages st w h st' Hcfg Hrun)
    as (st3 & Htick & Hwf & Hon & Hfit & Hnil & Hcv & Hfd & Hmin3 & Hmax3 & _).
  apply (frame_steady st3); [|done]. split.
  - by right.
  - done.
  - apply tracked_empty; [done|]. rewrite Hcv. apply live_delete_all.
  - intros k d its Hd Hi. rewrite Forall_lookup in Hnil.
    rewrite (Hnil k its Hi). simpl.
    destruct (st_drop_ok_lookup st3 k d Hwf Hd). lia.
  - split; [|done]. intros _. rewrite Hfd.
    destruct Hcfg as [(data & -> & _) _ _]. done.
  - by rewrite Hmin3, Hmax3.
Qed.

Lemma callback_steady cb st st' :
  steady st -> run_callback cb st = Ok st' -> steady st'.
Proof.
  intros Hst Hcb. destruct cb as [sel w h|m w h|]; simpl in Hcb.
  - destruct sel as [| |[|b data]]; simpl in Hcb; try (by injection Hcb as <-).
    destruct Hst as [_ _ _ _ _ [Hmin Hmax]].
    eapply reset_steady; [| | |exact Hcb]; try done.
    split; simpl; [by eexists|lia|lia].
  - unfold select_mode in Hcb.
    destruct Hst as [[(Hf & Hd & Hi & Ht)|Hwf] _ _ _ Hrun [Hmin Hmax]].
    + unfold reset_rain in Hcb. simpl in Hcb. rewrite Hf in Hcb.
      injection Hcb as <-.
      split; simpl; [|done|apply tracked_empty; [done|apply live_delete_all]
                     |done|by rewrite Hf in *|done].
      left. repeat split; simpl; try done; lia.
    + eapply reset_steady; [| | |exact Hcb]; try done.
      destruct Hwf as [[? ? ?] _ _ _]. by split.
  - by eapply frame_steady.
Qed.

Lemma run_steady cbs : forall st st',
  steady st -> run cbs st = Ok st' -> steady st'.
Proof.
  induction cbs as [|cb cbs IH]; intros st st' Hst Hrun; simpl in Hrun.
  - by injection Hrun as <-.
  - destruct (run_callback cb st) as [st1|] eqn:Hcb; [|discriminate].
    cbn [bind] in Hrun. eapply IH; [|exact Hrun]. by eapply callback_steady.
Qed.

Lemma start_steady measure_0 linespace w h g st0 :
  start_gui measure_0 linespace w h g = Ok st0 -> steady st0.
Proof.
  unfold start_gui, init_canvas_dimensions. simpl.
  destruct (py_floordiv _ measure_0) as [c|]; [|discriminate]. cbn [bind].
  destruct (py_floordiv _ linespace) as [r|]; [|discriminate]. cbn [bind].
  intros [= <-]. split; simpl; try done.
  - left. repeat split; simpl; try done; lia.
  - by apply tracked_empty.
Qed.

Lemma reset_rain_char_sizes st w h st' :
  reset_rain w h st = Ok st' ->
  char_width st' = char_width st /\ char_height st' = char_height st.
Proof.
  unfold reset_rain. destruct (file_data (clear_rain st)) as [data|] eqn:Hfd.
  2: { by intros [= <-]. }
  unfold init_canvas_dimensions.
  destruct (py_floordiv _ (char_width _)) as [c|]; [|discriminate]. cbn [bind].
  destruct (py_floordiv _ (char_height _)) as [r|]; [|discriminate]. cbn [bind].
  set (st1 := set_dimensions (clear_rain st) c r).
  replace (file_data st1) with (Some data) by done.
  destruct (create_drops st1) as [st2|] eqn:H1; [|discriminate]. cbn [bind].
  destruct (create_drops st2) as [st3|] eqn:H2; [|discriminate]. cbn [bind].
  intros Htick.
  destruct (create_drops_set_alloc st1 st2 H1) as (ds2 & its2 & g2 & ->).
  destruct (create_drops_set_alloc _ st3 H2) as (ds3 & its3 & g3 & ->).
  by destruct (update_rain_fields _ st' Htick) as (_ & _ & _ & _ & _ & _ & -> & -> & _).
Qed.

Lemma callback_char_sizes cb st st' :
  run_callback cb st = Ok st' ->
  char_width st' = char_width st /\ char_height st' = char_height st.
Proof.
  destruct cb as [sel w h|m w h|]; simpl.
  - destruct sel as [| |[|b data]]; simpl; try (by intros [= <-]).
    intros Hrun. by apply reset_rain_char_sizes in Hrun.
  - unfold select_mode. intros Hrun. by apply reset_rain_char_sizes in Hrun.
  - intros Htick.
    by destruct (update_rain_fields st st' Htick) as (_ & _ & _ & _ & _ & _ & -> & -> & _).
Qed.

Lemma callback_reachable cb st st' :
  reachable st -> run_callback cb st = Ok st' -> reachable st'.
Proof.
  intros Hr. destruct cb as [sel w h|m w h|]; simpl; intros Hcb.
  - by eapply reach_open.
  - by eapply reach_mode.
  - by eapply reach_tick.
Qed.


(** X6. In ASCII mode and in hex mode every drop has the selected mode
    and the text of each glyph is as many characters long as the drop is
    columns wide: one in ASCII mode, two in hex mode. *)
Theorem glyph_as_wide_as_drop measure_0 linespace w h g st0 cbs st d b :
  start_gui measure_0 linespace w h g = Ok st0 ->
  run cbs st0 = Ok st ->
  mode_var st = "ascii"%string \/ mode_var st = "hex"%string ->
  d ∈ drops st ->
  drop_mode d = mode_var st /\
  Z.of_nat (String.length (glyph_text (drop_mode d) b)) = drop_width d.
Proof.
  intros Hstart Hrun Hmode Hin.
  destruct (run_steady cbs st0 st (start_steady _ _ _ _ _ _ Hstart) Hrun)
    as [Hinv Hfit _ _ _ _].
  rewrite Forall_forall in Hfit. destruct (Hfit d Hin) as [Hm _ Ha _].
  assert (st_drop_ok st d) as Hok.
  { destruct Hinv as [(_ & Hd & _)|[_ _ _ Hds]].
    - rewrite Hd in Hin. by apply not_elem_of_nil in Hin.
    - rewrite Forall_forall in Hds. by apply Hds. }
  destruct Hmode as [Hmode|Hmode].
  - rewrite Hm by (rewrite Hmode; discriminate). split; [done|].
    rewrite Hmode, (Ha Hmode). by destruct b.
  - rewrite Hm by (rewrite Hmode; discriminate). split; [done|].
    rewrite Hmode. rewrite (ok_hex _ _ _ _ _ _ Hok Hmode). by destruct b.
Qed.

(** X8. Every drop of the running application keeps its head between
    [-rows] and [rows + tail], has a tail of 5 to 15 rows, and holds no
    more canvas items than its tail is long. *)
Theorem heads_tails_and_items_bounded measure_0 linespace w h g st0 cbs st k d :
  start_gui measure_0 linespace w h g = Ok st0 ->
  run cbs st0 = Ok st ->
  drops st !! k = Some d ->
  - rows st <= drop_y d <= rows st + drop_tail d /\
  5 <= drop_tail d <= 15 /\
  exists its, drop_items st !! k = Some its /\
              Z.of_nat (length its) <= drop_tail d.
Proof.
  intros Hstart Hrun Hd.
  destruct (run_steady cbs st0 st (start_steady _ _ _ _ _ _ Hstart) Hrun)
    as [Hinv Hfit _ Hbound _ [Hmin Hmax]].
  rewrite Forall_lookup in Hfit. destruct (Hfit k d Hd) as [_ _ _ Hy].
  destruct Hinv as [(_ & Hnil & _)|Hwf]; [by rewrite Hnil in Hd|].
  destruct (st_drop_ok_lookup st k d Hwf Hd).
  destruct (lookup_lt_is_Some_2 (drop_items st) k) as [its Hits].
  { destruct Hwf as [_ _ -> _]. by eapply lookup_lt_Some. }
  split; [done|]. split; [lia|]. exists its. split; [done|]. by eapply Hbound.
Qed.

(** X9. Frames run exactly when a file is loaded; a loaded file is never
    empty and [file_size] is its length; without a file there are no
    drops. *)
Theorem running_iff_file_loaded measure_0 linespace w h g st0 cbs st :
  start_gui measure_0 linespace w h g = Ok st0 ->
  run cbs st0 = Ok st ->
  (running st = true <-> file_data st <> None) /\
  (forall data, file_data st = Some data ->
     data <> [] /\ file_size st = Z.of_nat (length data)) /\
  (file_data st = None -> drops st = [] /\ drop_items st = []).
Proof.
  intros Hstart Hrun.
  destruct (run_steady cbs st0 st (start_steady _ _ _ _ _ _ Hstart) Hrun)
    as [Hinv _ _ _ Hon _].
  split; [done|].
  destruct Hinv as [(Hf & Hd & Hi & _)|[[(data & Hdata & Hsize) Hpos _] _ _ _]].
  - split; [intros data Hdata; congruence|done].
  - split; [|congruence]. intros data' Hdata'.
    rewrite Hdata in Hdata'. injection Hdata' as <-. split; [|done].
    intros ->. simpl in Hsize. lia.
Qed.

(** X10. Once the application has started, which takes non-zero font
    measurements, no callback raises: every sequence of file dialogs,
    mode selections and frames runs to the end. *)
Theorem callbacks_never_raise measure_0 linespace w h g st0 cbs :
  start_gui measure_0 linespace w h g = Ok st0 ->
  exists st, run cbs st0 = Ok st.
Proof.
  intros Hstart.
  assert (reachable st0 /\ char_width st0 <> 0 /\ char_height st0 <> 0) as Hpre.
  { pose proof (start_steady _ _ _ _ _ _ Hstart) as [Hinv _ _ _ Hon _].
    unfold start_gui, init_canvas_dimensions, py_floordiv in Hstart.
    simpl in Hstart.
    destruct (Z.eqb_spec measure_0 0); [discriminate|]. cbn [bind] in Hstart.
    destruct (Z.eqb_spec linespace 0); [discriminate|]. cbn [bind] in Hstart.
    injection Hstart as <-. simpl. split; [|done].
    apply reach_startup. repeat split; simpl; try done; lia. }
  clear Hstart. revert st0 Hpre.
  induction cbs as [|cb cbs IH]; intros st0 (Hr & Hcw & Hch); [by eexists|].
  assert (exists st1, run_callback cb st0 = Ok st1) as (st1 & Hcb).
  { destruct (reachable_callbacks_return st0 Hr Hcw Hch) as [Hopen Hsel].
    destruct cb as [sel w' h'|m w' h'|]; simpl; auto.
    by apply reachable_tick_returns. }
  simpl. rewrite Hcb. cbn [bind]. apply IH.
  destruct (callback_char_sizes cb st0 st1 Hcb) as [-> ->].
  split; [|done]. by eapply callback_reachable.
Qed.

(** ** Lifetime of a drop, size of an allocation, size of the grid *)

(** X4. A drop with head [y] and tail [t] is recycled for the first time
    by frame number [rows + t - y + 1] from now, and by the very next
    frame when that number is not positive: it is recycled within [n]
    frames exactly when [n] exceeds [rows + t - y]. *)
Theorem drop_lifetime st k d n :
  wf st -> running st = true -> drops st !! k = Some d ->
  (recycled_within n st k = true <->
   (Z.to_nat (rows st + drop_tail d - drop_y d) < n)%nat).
Proof.
  intros Hwf Hrun Hd. rewrite (recycled_within_count n st k d Hwf Hrun Hd).
  apply Nat.ltb_lt.
Qed.

Lemma ranges_ordered_count m cols ds : forall lo,
  0 <= m -> ranges_ordered ds ->
  Forall (fun d => lo <= drop_x d /\ m <= drop_width d /\
                   drop_x d + drop_width d <= cols) ds ->
  ds = [] \/ m * Z.of_nat (length ds) <= cols - lo.
Proof.
  induction ds as [|d rest IH]; intros lo Hm Hord Hall; [by left|right].
  apply Forall_cons in Hall as [(Hlo & Hw & Hc) Hrest].
  destruct (IH (drop_x d + drop_width d) Hm) as [-> |Hle].
  - intros i j d1 d2 Hlt H1 H2. apply (Hord (S i) (S j) d1 d2); [lia|done..].
  - apply Forall_lookup. intros j dj Hj. rewrite Forall_lookup in Hrest.
    destruct (Hrest j dj Hj) as (_ & ? & ?). split; [|done].
    apply (Hord 0%nat (S j) d dj); [lia|done..].
  - simpl. lia.
  - simpl length. lia.
Qed.

(** X5. On a grid with at least one column and one row the allocator
    returns the drops from left to right, at most one per column and in
    hex mode at most one per two columns, each with an empty item list, a
    head between [-rows] and 0 and a tail in the tail range; in ASCII
    mode all are one column wide with mode ascii, in hex mode two columns
    wide with mode hex, and in mixed mode each has mode ascii or hex. *)
Theorem allocated_drops_shape st st' :
  create_drops st = Ok st' -> 1 <= cols st -> 1 <= rows st ->
  ranges_ordered (drops st') /\
  Z.of_nat (length (drops st')) <= cols st /\
  (mode_var st = "hex"%string -> 2 * Z.of_nat (length (drops st')) <= cols st) /\
  length (drop_items st') = length (drops st') /\
  Forall (fun l => l = []) (drop_items st') /\
  forall d, d ∈ drops st' ->
    - rows st <= drop_y d <= 0 /\
    min_tail st <= drop_tail d <= max_tail st /\
    (drop_width d = 1 \/ drop_width d = 2) /\
    (mode_var st = "ascii"%string ->
     drop_width d = 1 /\ drop_mode d = "ascii"%string) /\
    (mode_var st = "hex"%string ->
     drop_width d = 2 /\ drop_mode d = "hex"%string) /\
    (mode_var st = "mixed"%string ->
     drop_mode d = "ascii"%string \/ drop_mode d = "hex"%string).
Proof.
  intros Hrun Hc Hr.
  destruct (create_drops_inv st st' Hrun Hc Hr)
    as (ds & its & g & Heq & Hpl & Hord & Hlen & Hnil).
  assert (Forall (fun d =>
            (mode_var st <> "mixed"%string -> drop_mode d = mode_var st) /\
            (mode_var st = "mixed"%string ->
             drop_mode d = "ascii"%string \/ drop_mode d = "hex"%string)) ds)
    as Hmode.
  { unfold create_drops in Hrun.
    destruct (Z.ltb_spec (cols st) 1); [lia|].
    destruct (Z.ltb_spec (rows st) 1); [lia|]. simpl in Hrun.
    destruct (create_loop _ _ _ _ _ _ _ _ _ _ _ _) as [[[ds0 its0] g0]|] eqn:Hloop;
      [|discriminate].
    cbn [bind] in Hrun. rewrite Heq in Hrun.
    assert (ds0 = ds) as <- by (by injection Hrun).
    eapply create_loop_new_drops; [|exact Hloop|constructor].
    intros x w gw g1 d g' _ Hnew. by eapply new_drop_mode. }
  subst st'. simpl. split; [done|].
  split.
  { destruct (ranges_ordered_count 1 (cols st) ds 0 ltac:(lia) Hord) as [-> |?];
      [|simpl; lia|lia].
    eapply Forall_impl; [exact Hpl|]. intros d ([Hx0 Hx1 Hw12 _ _ _] & _). lia. }
  split.
  { intros Hhex.
    destruct (ranges_ordered_count 2 (cols st) ds 0 ltac:(lia) Hord) as [-> |?];
      [|simpl; lia|lia].
    eapply Forall_impl; [exact Hpl|]. intros d ([Hx0 Hx1 _ _ _ Hw2] & _).
    specialize (Hw2 Hhex). lia. }
  split; [done|]. split; [done|].
  intros d Hin. rewrite Forall_forall in Hpl, Hmode.
  destruct (Hpl d Hin) as (Hok & _ & Hy & Ha). destruct (Hmode d Hin) as [Hm1 Hm2].
  destruct Hok as [_ _ Hw12 _ Ht Hw2].
  split; [done|]. split; [done|]. split; [done|].
  split; [intros Hasc|split; [intros Hhex|done]].
  - split; [by apply Ha|]. rewrite Hm1; [done|]. rewrite Hasc. discriminate.
  - split; [by apply Hw2|]. rewrite Hm1; [done|]. rewrite Hhex. discriminate.
Qed.

(** X7. [_init_canvas_dimensions] raises [ZeroDivisionError] when a
    character measures zero pixels in either direction; with positive
    measurements it stores the largest grid that fits the canvas, a window
    reported smaller than one pixel counting as one pixel: [cols] columns
    fit the width and [cols + 1] do not, and likewise for the rows. *)
Theorem grid_fits_canvas w h st :
  (char_width st = 0 \/ char_height st = 0 ->
   init_canvas_dimensions w h st = Raise ZeroDivisionError) /\
  (forall st',
     0 < char_width st -> 0 < char_height st ->
     init_canvas_dimensions w h st = Ok st' ->
     0 <= cols st' /\ 0 <= rows st' /\
     cols st' * char_width st <= Z.max 1 w < (cols st' + 1) * char_width st /\
     rows st' * char_height st <= Z.max 1 h < (rows st' + 1) * char_height st).
Proof.
  split.
  - intros Hzero. unfold init_canvas_dimensions, py_floordiv.
    destruct (Z.eqb_spec (char_width st) 0); [done|].
    destruct (Z.eqb_spec (char_height st) 0); [done|lia].
  - intros st' Hcw Hch. unfold init_canvas_dimensions, py_floordiv.
    destruct (Z.eqb_spec (char_width st) 0); [lia|].
    destruct (Z.eqb_spec (char_height st) 0); [lia|]. cbn [bind].
    set (c := Z.max 1 w / char_width st). set (r := Z.max 1 h / char_height st).
    intros Hrun.
    assert (cols st' = c /\ rows st' = r) as [-> ->].
    { destruct (file_data (set_dimensions st c r)); [|by injection Hrun as <-].
      by destruct (create_drops_set_alloc _ st' Hrun) as (? & ? & ? & ->). }
    unfold c, r.
    pose proof (Z.mul_div_le (Z.max 1 w) (char_width st) Hcw).
    pose proof (Z.mul_succ_div_gt (Z.max 1 w) (char_width st) Hcw).
    pose proof (Z.mul_div_le (Z.max 1 h) (char_height st) Hch).
    pose proof (Z.mul_succ_div_gt (Z.max 1 h) (char_height st) Hch).
    pose proof (Z.div_pos (Z.max 1 w) (char_width st) ltac:(lia) Hcw).
    pose proof (Z.div_pos (Z.max 1 h) (char_height st) ltac:(lia) Hch).
    lia.
Qed.

(** ** The further theorems at concrete states *)

Lemma demo_start_eq : start_gui 10 20 10 200 zero_rng = Ok demo_start.
Proof. vm_compute. reflexivity. Qed.

Lemma demo_run_eq : run demo_callbacks demo_start = Ok demo_state.
Proof. vm_compute. reflexivity. Qed.


Lemma frame_draws_inside_grid_witness :
  wf abc_due /\ running abc_due = true /\
  update_rain abc_due = Ok abc_recycled /\
  exists emitted,
    calls (canvas abc_recycled) = calls (canvas abc_due) ++ emitted /\
    Forall (glyph_in_grid abc_due) emitted.
Proof.
  split; [exact abc_due_wf|]. split; [reflexivity|].
  assert (update_rain abc_due = Ok abc_recycled) as H by (vm_compute; reflexivity).
  split; [exact H|].
  exact (frame_draws_inside_grid abc_due abc_recycled abc_due_wf eq_refl H).
Defined.

Lemma frame_draws_random_iff_recycle_witness :
  wf abc_due /\ running abc_due = true /\
  update_rain abc_due = Ok abc_recycled /\
  (random abc_recycled = random abc_due <->
   forall k, recycle_due abc_due k = false).
Proof.
  split; [exact abc_due_wf|]. split; [reflexivity|].
  assert (update_rain abc_due = Ok abc_recycled) as H by (vm_compute; reflexivity).
  split; [exact H|].
  exact (frame_draws_random_iff_recycle abc_due abc_recycled abc_due_wf eq_refl H).
Defined.

Lemma drop_lifetime_witness :
  wf abc_opened /\ running abc_opened = true /\
  drops abc_opened !! 0%nat = Some (mkDrop 0 1 1 5 1 "ascii") /\
  (recycled_within 15 abc_opened 0 = true <->
   (Z.to_nat (rows abc_opened + 5 - 1) < 15)%nat).
Proof.
  split; [exact abc_opened_wf|]. split; [reflexivity|]. split; [reflexivity|].
  exact (drop_lifetime abc_opened 0 (mkDrop 0 1 1 5 1 "ascii") 15
           abc_opened_wf eq_refl eq_refl).
Defined.

Lemma allocated_drops_shape_witness :
  1 <= cols scenario_zero /\ 1 <= rows scenario_zero /\
  exists st',
    create_drops scenario_zero = Ok st' /\
    ranges_ordered (drops st') /\
    Z.of_nat (length (drops st')) <= cols scenario_zero.
Proof.
  split; [simpl; lia|]. split; [simpl; lia|].
  eexists. split; [vm_compute; reflexivity|].
  refine (let H := allocated_drops_shape scenario_zero _ _ _ _ in
          conj (proj1 H) (proj1 (proj2 H))).
  - vm_compute. reflexivity.
  - simpl. lia.
  - simpl. lia.
Defined.

Lemma glyph_as_wide_as_drop_witness :
  mode_var demo_state = "ascii"%string /\
  mkDrop 0 3 1 5 0 "ascii" ∈ drops demo_state /\
  Z.of_nat (String.length (glyph_text "ascii" x41)) = 1.
Proof.
  split; [reflexivity|].
  assert (mkDrop 0 3 1 5 0 "ascii" ∈ drops demo_state) as Hin
    by (simpl; apply list_elem_of_here).
  split; [exact Hin|].
  exact (proj2 (glyph_as_wide_as_drop 10 20 10 200 zero_rng demo_start
                  demo_callbacks demo_state (mkDrop 0 3 1 5 0 "ascii") x41
                  demo_start_eq demo_run_eq (or_introl eq_refl) Hin)).
Defined.

Lemma grid_fits_canvas_witness :
  0 < char_width abc_start /\ 0 < char_height abc_start /\
  exists st',
    init_canvas_dimensions 15 205 abc_start = Ok st' /\
    cols st' * char_width abc_start <= Z.max 1 15
      < (cols st' + 1) * char_width abc_start.
Proof.
  assert (0 < char_width abc_start) as Hcw by (simpl; lia).
  assert (0 < char_height abc_start) as Hch by (simpl; lia).
  split; [exact Hcw|]. split; [exact Hch|].
  eexists. split; [vm_compute; reflexivity|].
  refine (proj1 (proj2 (proj2 (proj2 (grid_fits_canvas 15 205 abc_start) _ Hcw Hch _)))).
  vm_compute. reflexivity.
Defined.

Lemma heads_tails_and_items_bounded_witness :
  drops demo_state !! 0%nat = Some (mkDrop 0 3 1 5 0 "ascii") /\
  - rows demo_state <= 3 <= rows demo_state + 5 /\ 5 <= 5 <= 15.
Proof.
  split; [reflexivity|].
  refine (let H := heads_tails_and_items_bounded 10 20 10 200 zero_rng demo_start
                     demo_callbacks demo_state 0 (mkDrop 0 3 1 5 0 "ascii")
                     demo_start_eq demo_run_eq eq_refl in
          conj (proj1 H) (proj1 (proj2 H))).
Defined.

Lemma running_iff_file_loaded_witness :
  start_gui 10 20 10 200 zero_rng = Ok demo_start /\
  run demo_callbacks demo_start = Ok demo_state /\
  (running demo_state = true <-> file_data demo_state <> None).
Proof.
  split; [exact demo_start_eq|]. split; [exact demo_run_eq|].
  exact (proj1 (running_iff_file_loaded 10 20 10 200 zero_rng demo_start
                  demo_callbacks demo_state demo_start_eq demo_run_eq)).
Defined.

Lemma callbacks_never_raise_witness :
  start_gui 10 20 10 200 zero_rng = Ok demo_start /\
  exists st, run (demo_callbacks ++ demo_callbacks) demo_start = Ok st.
Proof.
  split; [exact demo_start_eq|].
  exact (callbacks_never_raise 10 20 10 200 zero_rng demo_start
           (demo_callbacks ++ demo_callbacks) demo_start_eq).
Defined.

(** ** Mixed mode, and the occupancy array *)

(** X11. In mixed mode the mode of a new drop is drawn on its own, after
    and apart from its width: from the same generator state a drop one
    column wide and a drop two columns wide get the same mode, ascii or
    hex, and the generator can make it either. So a drop one column wide
    can carry mode hex, and its glyphs are then two characters long. *)
Theorem mixed_mode_ignores_width rows min_tail max_tail file_size x w w' g :
  0 <= rows -> min_tail <= max_tail -> 1 <= file_size ->
  (exists d d' g',
     new_drop rows min_tail max_tail file_size "mixed" x w g = Ok (d, g') /\
     new_drop rows min_tail max_tail file_size "mixed" x w' g = Ok (d', g') /\
     drop_width d = w /\ drop_width d' = w' /\ drop_mode d = drop_mode d' /\
     (drop_mode d = "ascii"%string \/ drop_mode d = "hex"%string)) /\
  (exists d g',
     new_drop rows min_tail max_tail file_size "mixed" x w
              (mkRng (fun _ => 1) (pos g)) = Ok (d, g') /\
     drop_width d = w /\ drop_mode d = "hex"%string /\
     forall b, String.length (glyph_text (drop_mode d) b) = 2%nat) /\
  (exists d g',
     new_drop rows min_tail max_tail file_size "mixed" x w
              (mkRng (fun _ => 0) (pos g)) = Ok (d, g') /\
     drop_width d = w /\ drop_mode d = "ascii"%string).
Proof.
  intros Hr Ht Hf. split; [|split].
  - unfold new_drop.
    destruct (randint_spec 0 rows g Hr) as (r & -> & _). cbn [bind].
    destruct (randint_spec min_tail max_tail (advance_rng g) Ht) as (t & -> & _).
    cbn [bind].
    destruct (randrange_spec file_size (advance_rng (advance_rng g)) Hf)
      as (ix & -> & _).
    cbn [bind String.eqb Ascii.eqb Bool.eqb].
    destruct (choice_pair "ascii"%string "hex"%string
                (advance_rng (advance_rng (advance_rng g)))) as (m & -> & Hm).
    cbn [bind]. eexists _, _, _. repeat split; simpl; done.
  - unfold new_drop, randint, randrange, choice, next_raw.
    destruct (Z.ltb_spec rows 0); [lia|].
    destruct (Z.ltb_spec max_tail min_tail); [lia|].
    destruct (Z.leb_spec file_size 0); [lia|].
    simpl. eexists _, _. split; [reflexivity|]. simpl.
    by repeat split.
  - unfold new_drop, randint, randrange, choice, next_raw.
    destruct (Z.ltb_spec rows 0); [lia|].
    destruct (Z.ltb_spec max_tail min_tail); [lia|].
    destruct (Z.leb_spec file_size 0); [lia|].
    simpl. eexists _, _. split; [reflexivity|]. simpl. by repeat split.
Qed.



Section Occupancy.
Variables (cols rows min_tail max_tail file_size : Z) (mode : string).



End Occupancy.

Lemma mixed_mode_ignores_width_witness :
  0 <= 10 /\ 5 <= 15 /\ 1 <= 3 /\
  exists d g',
    new_drop 10 5 15 3 "mixed" 0 1 (mkRng (fun _ => 1) 0) = Ok (d, g') /\
    drop_width d = 1 /\ drop_mode d = "hex"%string.
Proof.
  split; [lia|]. split; [lia|]. split; [lia|].
  destruct (mixed_mode_ignores_width 10 5 15 3 0 1 2 zero_rng
              ltac:(lia) ltac:(lia) ltac:(lia))
    as (_ & (d & g' & Heq & Hw & Hm & _) & _).
  exists d, g'. split; [exact Heq|]. split; [exact Hw|exact Hm].
Defined.

